(** * The service-instance registry of server/service/instance.go

    A shallow embedding of [InstanceService]: registration with its
    lease-coupled two-key commit, batch heartbeats and discovery.  The
    collaborators the Go file only calls (validation, the service cache,
    the quota and UUID plugins, the transactional store) are gathered in
    a record of externals and in per-call oracles; the handlers
    themselves follow the Go text statement by statement. *)

From stdpp Require Import base strings gmap list pretty.
Local Open Scope Z_scope.

(** ** 32-bit integers

    [HealthCheck.Interval] and [HealthCheck.Times] are Go [int32] (the
    product is converted with [int64(...)] at line 130 and compared with
    [math.MaxInt32] at line 70); their arithmetic wraps around in two's
    complement. *)

Definition wrap32 (z : Z) : Z := (z + 2 ^ 31) mod 2 ^ 32 - 2 ^ 31.
Definition MaxInt32 : Z := 2 ^ 31 - 1.
Definition MinInt32 : Z := - 2 ^ 31.
Definition int32_add (a b : Z) : Z := wrap32 (a + b).
Definition int32_mul (a b : Z) : Z := wrap32 (a * b).
Definition is_int32 (z : Z) : Prop := MinInt32 ≤ z ≤ MaxInt32.

(** ** Messages (package pb)

    Modelled from the spec: the records of the data model (section 3)
    and of the RPC surface (section 6), with the fields this file reads
    or writes; the message types are declared in the proto package. *)

(** Modelled from the spec: the health-check modes of the data model,
    [mode ∈ {HEARTBEAT, PLATFORM, PUSH}]; the constants
    [pb.CHECK_BY_HEARTBEAT] and [pb.CHECK_BY_PLATFORM] are declared
    outside this file. *)
Inductive CheckMode := CHECK_BY_HEARTBEAT | CHECK_BY_PLATFORM | CHECK_BY_PUSH.

Module HealthCheck.
Record t := mk { Mode : CheckMode; Interval : Z; Times : Z }.
End HealthCheck.

Module MicroServiceInstance.
Record t := mk {
  InstanceId : string;
  ServiceId : string;
  Endpoints : list string;
  HostName : string;
  Status : string;
  HealthCheck : option HealthCheck.t;   (* a nil-able pointer *)
  Timestamp : string;
  ModTimestamp : string;
  Version : string
}.
End MicroServiceInstance.

Module MicroService.
Record t := mk {
  ServiceId : string;
  Environment : string;
  AppId : string;
  ServiceName : string;
  Alias : string;
  Version : string
}.
End MicroService.

Module MicroServiceKey.
Record t := mk {
  Tenant : string;
  Environment : string;
  AppId : string;
  ServiceName : string;
  Alias : string;
  Version : string
}.
End MicroServiceKey.

(** Modelled from the spec: the error taxonomy of the registry (section
    7) together with the success code; the numeric codes live in the
    error package, outside this file. *)
Inductive Code :=
  | Response_SUCCESS
  | ErrInvalidParams
  | ErrServiceNotExists
  | ErrInstanceNotExists
  | ErrTagNotExists
  | ErrNotEnoughQuota
  | ErrForbidden
  | ErrInternal
  | ErrUnavailableBackend.

#[global] Instance Code_eq_dec : EqDecision Code.
Proof. solve_decision. Defined.

Module scerr.
Record Error := NewError { Code : Code; Detail : string }.

(** Modelled from the spec: "each error carries a boolean internal?
    flag"; Unavailable and Internal are the kinds that surface as
    transport errors. *)
Definition InternalError (e : Error) : bool :=
  match Code e with
  | ErrInternal | ErrUnavailableBackend => true
  | _ => false
  end.
End scerr.

(** A Go [error] value: either a registry error or a plain message. *)
Inductive error :=
  | SCError (e : scerr.Error)
  | PlainError (msg : string).

Definition Error_string (e : error) : string :=
  match e with
  | SCError e => scerr.Detail e
  | PlainError msg => msg
  end.

Module Response.
Record t := mk { Code : Code; Message : string }.
End Response.

(** Modelled from the spec: a response carries the code of the outcome
    and a message, and a registry error "is returned in the response
    body" with its own code and detail (section 7); the constructors are
    declared in the proto package. *)
Definition CreateResponse (code : Code) (message : string) : Response.t :=
  Response.mk code message.

Definition CreateResponseWithSCErr (e : scerr.Error) : Response.t :=
  Response.mk (scerr.Code e) (scerr.Detail e).

Module RegisterInstanceRequest.
(** [Instance] is taken non-nil: a request without an instance does not
    pass validation. *)
Record t := mk { Instance : MicroServiceInstance.t }.
End RegisterInstanceRequest.

Module RegisterInstanceResponse.
Record t := mk { Response : Response.t; InstanceId : string }.
End RegisterInstanceResponse.

Module HeartbeatSetElement.
Record t := mk { ServiceId : string; InstanceId : string }.
End HeartbeatSetElement.

Module HeartbeatSetRequest.
Record t := mk { Instances : list HeartbeatSetElement.t }.
End HeartbeatSetRequest.

Module InstanceHbRst.
Record t := mk { ServiceId : string; InstanceId : string; ErrMessage : string }.
End InstanceHbRst.

Module HeartbeatSetResponse.
Record t := mk { Response : Response.t; Instances : list InstanceHbRst.t }.
End HeartbeatSetResponse.

Module FindInstancesRequest.
Record t := mk {
  ConsumerServiceId : string;
  AppId : string;
  ServiceName : string;
  VersionRule : string;
  Environment : string;
  Tags : list string
}.
End FindInstancesRequest.

Module FindInstancesResponse.
Record t := mk { Response : Response.t; Instances : list MicroServiceInstance.t }.
End FindInstancesResponse.

(** An entry of the find cache (package cache). *)
Module VersionRuleCacheItem.
Record t := mk {
  ServiceIds : list string;
  Instances : list MicroServiceInstance.t;
  Rev : string
}.
End VersionRuleCacheItem.

(** What [Validate] is applied to in this file. *)
Inductive Request :=
  | RegisterRequest (r : RegisterInstanceRequest.t)
  | FindRequest (r : FindInstancesRequest.t).

(** Modelled from the spec: the key of a service under a tenant, "reading
    the first matched provider's canonical name/alias" (section 4.6). *)
Definition MicroServiceToKey (domainProject : string) (service : MicroService.t)
    : MicroServiceKey.t :=
  MicroServiceKey.mk domainProject (MicroService.Environment service)
    (MicroService.AppId service) (MicroService.ServiceName service)
    (MicroService.Alias service) (MicroService.Version service).

Definition MSI_UP : string := "UP".

(** Modelled from the spec: the registry defaults, "interval = 30,
    retry = 3 → ttl = 120"; the constants are declared in the core
    package. *)
Definition REGISTRY_DEFAULT_LEASE_RENEWALINTERVAL : Z := 30.
Definition REGISTRY_DEFAULT_LEASE_RETRYTIMES : Z := 3.

(** ** Request context (package util)

    Modelled from the spec: the context metadata consumed from the RPC
    headers (tenant domain, project, target domain and project, request
    revision), held in a string-keyed map that [SetContext] updates. *)

Inductive CtxValue := VString (s : string) | VBool (b : bool).

Abbreviation Ctx := (gmap string CtxValue).

Definition ctx_string (ctx : Ctx) (k : string) : string :=
  match ctx !! k with
  | Some (VString s) => s
  | _ => ""
  end.

Definition ctx_bool (ctx : Ctx) (k : string) : bool :=
  match ctx !! k with
  | Some (VBool b) => b
  | _ => false
  end.

Definition CTX_DOMAIN : string := "domain".
Definition CTX_PROJECT : string := "project".
Definition CTX_TARGET_DOMAIN : string := "target-domain".
Definition CTX_TARGET_PROJECT : string := "target-project".
Definition CTX_SC_SELF : string := "_sc_self".
Definition CTX_REQUEST_REVISION : string := "_request_revision".
Definition CTX_RESPONSE_REVISION : string := "_response_revision".

Definition SetContext (ctx : Ctx) (k : string) (v : CtxValue) : Ctx := <[k := v]> ctx.
Definition ParseDomain (ctx : Ctx) : string := ctx_string ctx CTX_DOMAIN.
Definition ParseProject (ctx : Ctx) : string := ctx_string ctx CTX_PROJECT.
Definition ParseDomainProject (ctx : Ctx) : string :=
  ParseDomain ctx +:+ "/" +:+ ParseProject ctx.
Definition ParseTargetDomain (ctx : Ctx) : string := ctx_string ctx CTX_TARGET_DOMAIN.
Definition ParseTargetProject (ctx : Ctx) : string := ctx_string ctx CTX_TARGET_PROJECT.
Definition ParseTargetDomainProject (ctx : Ctx) : string :=
  ParseTargetDomain ctx +:+ "/" +:+ ParseTargetProject ctx.
Definition SetTargetDomainProject (ctx : Ctx) (domain project : string) : Ctx :=
  SetContext (SetContext ctx CTX_TARGET_DOMAIN (VString domain))
             CTX_TARGET_PROJECT (VString project).
Definition IsSCInstance (ctx : Ctx) : bool := ctx_bool ctx CTX_SC_SELF.

(** ** The transactional store (package registry)

    Modelled from the spec: the KV/Lease gateway of section 4.1, a store
    of keys with a value, an owning lease and a version, where
    "tx_commit(ops, compares) executes a transaction with a set of
    compare predicates and a set of put/delete operations. Atomic", a
    missing key has version 0, and revoking a lease deletes the keys it
    owns. *)

Module KeyValue.
Record t := mk { Value : string; Lease : Z; Version : Z }.
End KeyValue.

Abbreviation Store := (gmap string KeyValue.t).

Inductive PluginOp :=
  | OpPut (key value : string) (lease : Z)
  | OpDelete (key : string).

Inductive CompareResult := CMP_EQUAL | CMP_NOT_EQUAL | CMP_GREATER | CMP_LESS.

Inductive CompareOp :=
  | OpCmpVer (key : string) (result : CompareResult) (value : Z).

Definition version_of (st : Store) (key : string) : Z :=
  match st !! key with
  | Some kv => KeyValue.Version kv
  | None => 0
  end.

Definition eval_cmp (st : Store) (c : CompareOp) : bool :=
  match c with
  | OpCmpVer key CMP_EQUAL v => bool_decide (version_of st key = v)
  | OpCmpVer key CMP_NOT_EQUAL v => bool_decide (version_of st key ≠ v)
  | OpCmpVer key CMP_GREATER v => bool_decide (v < version_of st key)
  | OpCmpVer key CMP_LESS v => bool_decide (version_of st key < v)
  end.

Definition apply_op (st : Store) (op : PluginOp) : Store :=
  match op with
  | OpPut key value lease =>
      <[key := KeyValue.mk value lease (version_of st key + 1)]> st
  | OpDelete key => delete key st
  end.

Definition apply_ops (st : Store) (ops : list PluginOp) : Store :=
  foldl apply_op st ops.
Arguments apply_ops : simpl never.

Definition revoke_keys (st : Store) (leaseID : Z) : Store :=
  filter (λ kv, KeyValue.Lease kv.2 ≠ leaseID) st.

(** ** Quota reservations (package quota) *)

Module ApplyQuotaResource.
Record t := mk { DomainProject : string; ServiceId : string; QuotaSize : Z }.
End ApplyQuotaResource.

Module ApplyQuotaResult.
(** [Reporter] is the plugin's reporter; [Some r] answers
    [ReportUsedQuota] with [r]. *)
Record t := mk { Err : option scerr.Error; Reporter : option (option error) }.
End ApplyQuotaResult.

(** ** The world the handlers act on *)

Inductive Call :=
  | CallApply4Quotas (res : ApplyQuotaResource.t)
  | CallReportUsedQuota
  | CallQuotaClose
  | CallLeaseGrant (ttl : Z)
  | CallLeaseRevoke (leaseID : Z)
  | CallTxnWithCmp (success : list PluginOp) (cmps : list CompareOp) (fail : list PluginOp)
  | CallAddServiceVersionRule (domainProject : string)
      (consumer : MicroService.t) (provider : MicroServiceKey.t).

Record World := mkWorld {
  store : Store;            (* the keys of the transactional store *)
  leases : gmap Z Z;        (* live leases with their TTL in seconds *)
  calls : list Call         (* calls made to the stateful collaborators *)
}.

Definition set_store (st : Store) (w : World) : World :=
  mkWorld st (leases w) (calls w).
Definition set_leases (ls : gmap Z Z) (w : World) : World :=
  mkWorld (store w) ls (calls w).
Definition add_call (c : Call) (w : World) : World :=
  mkWorld (store w) (leases w) (calls w ++ [c]).

(** A handler either returns or panics (a nil pointer dereference). *)
Inductive Res (A : Type) :=
  | Done (a : A) (w : World)
  | Panic (msg : string) (w : World).
Arguments Done {A} a w.
Arguments Panic {A} msg w.

Definition M (A : Type) : Type := World → Res A.

#[global] Instance M_ret : MRet M := λ A a w, Done a w.
#[global] Instance M_bind : MBind M := λ A B f m w,
  match m w with
  | Done a w' => f a w'
  | Panic msg w' => Panic msg w'
  end.

Definition world_of {A} (r : Res A) : World :=
  match r with
  | Done _ w => w
  | Panic _ w => w
  end.

Definition get_store : M Store := λ w, Done (store w) w.
Definition call (c : Call) : M unit := λ w, Done () (add_call c w).
Definition panic {A} (msg : string) : M A := λ w, Panic msg w.

(** Go's [defer d]: [d] runs when the body returns, and when it panics. *)
Definition defer {A} (d : M unit) (body : M A) : M A := λ w,
  match body w with
  | Done a w' =>
      match d w' with
      | Done _ w'' => Done a w''
      | Panic msg w'' => Panic msg w''
      end
  | Panic msg w' =>
      match d w' with
      | Done _ w'' => Panic msg w''
      | Panic msg' w'' => Panic msg' w''
      end
  end.

Definition nil_dereference : string :=
  "invalid memory address or nil pointer dereference".

(** ** Collaborators

    [Externals] gathers what the handlers read from the packages around
    them; each reader sees the current store.  An [Oracle] fixes, for one
    call of a handler, the answers of the plugins that are not functions
    of the store. *)

Module PluginResponse.
Record t := mk { Succeeded : bool }.
End PluginResponse.

Record Externals := {
  RootKey : string;                       (* the common key prefix *)
  Service : MicroService.t;               (* core.Service, the registry's own service *)
  IsShared : MicroServiceKey.t → bool;    (* core.IsShared *)
  Validate : Request → option error;
  InstanceExist : Store → Ctx → MicroServiceInstance.t → string * option scerr.Error;
  GetService : Store → Ctx → string → string → option MicroService.t * option error;
  json_Marshal : MicroServiceInstance.t → string + error;
  FindInstances_Get : Store → Ctx → MicroService.t → MicroServiceKey.t → list string →
                      string → option VersionRuleCacheItem.t * option error;
  ExistVersionRule : Store → Ctx → string → MicroServiceKey.t → bool
}.

Record Oracle := {
  GetInstanceId : string;                 (* the UUID plugin *)
  Now : Z;                                (* time.Now().Unix() *)
  QuotaAnswer : ApplyQuotaResult.t;       (* the quota plugin *)
  LeaseGrantAnswer : Z + error;           (* a fresh lease id, or a backend error *)
  TxnError : option error;                (* the backend fails the transaction *)
  AddRuleAnswer : option error            (* the dependency writer *)
}.

(** *** Key schema

    Modelled from the spec: section 4.2, "…/service/{tenant}/{project}/
    {service_id}", "…/inst/{tenant}/{project}/{service_id}/{instance_id}"
    and "…/lease/{tenant}/{project}/{service_id}/{instance_id}", where
    [domainProject] is "{tenant}/{project}" and [root] the common
    prefix. *)

Definition instance_prefix (root : string) : string := root +:+ "/inst/".
Definition lease_prefix (root : string) : string := root +:+ "/lease/".
Definition service_prefix (root : string) : string := root +:+ "/service/".

Definition GenerateServiceKey (root domainProject serviceId : string) : string :=
  service_prefix root +:+ domainProject +:+ "/" +:+ serviceId.
Definition GenerateInstanceKey (root domainProject serviceId instanceId : string) : string :=
  instance_prefix root +:+ domainProject +:+ "/" +:+ serviceId +:+ "/" +:+ instanceId.
Definition GenerateInstanceLeaseKey (root domainProject serviceId instanceId : string) : string :=
  lease_prefix root +:+ domainProject +:+ "/" +:+ serviceId +:+ "/" +:+ instanceId.

(** *** The registry backend *)

Definition LeaseGrant (o : Oracle) (ttl : Z) : M (Z + error) := λ w,
  let w := add_call (CallLeaseGrant ttl) w in
  match LeaseGrantAnswer o with
  | inl leaseID => Done (inl leaseID) (set_leases (<[leaseID := ttl]> (leases w)) w)
  | inr err => Done (inr err) w
  end.

Definition LeaseRevoke (leaseID : Z) : M unit := λ w,
  let w := add_call (CallLeaseRevoke leaseID) w in
  Done () (set_store (revoke_keys (store w) leaseID)
             (set_leases (delete leaseID (leases w)) w)).

Definition TxnWithCmp (o : Oracle) (success : list PluginOp)
    (cmps : list CompareOp) (fail : list PluginOp) : M (PluginResponse.t + error) := λ w,
  let w := add_call (CallTxnWithCmp success cmps fail) w in
  match TxnError o with
  | Some err => Done (inr err) w
  | None =>
      if forallb (eval_cmp (store w)) cmps
      then Done (inl (PluginResponse.mk true)) (set_store (apply_ops (store w) success) w)
      else Done (inl (PluginResponse.mk false)) (set_store (apply_ops (store w) fail) w)
  end.

(** *** The quota plugin *)

Definition Apply4Quotas (o : Oracle) (res : ApplyQuotaResource.t) : M ApplyQuotaResult.t :=
  _ ← call (CallApply4Quotas res); mret (QuotaAnswer o).

(** Modelled from the spec: the reservation of section 4.8, whose
    methods are declared in the quota package.  "reservation.report_used()
    confirms the reservation post-commit" and is best-effort ("logged but
    never fail the RPC"); "registry's own instance registration bypasses
    quota", so a caller that holds no reservation has nothing to confirm
    or release and both methods return at once. *)
Definition ReportUsedQuota (r : option ApplyQuotaResult.t) : M (option error) :=
  match r with
  | None => mret None
  | Some r =>
      match ApplyQuotaResult.Reporter r with
      | None => mret None
      | Some answer => _ ← call CallReportUsedQuota; mret answer
      end
  end.

Definition Close (r : option ApplyQuotaResult.t) : M unit :=
  match r with
  | None => mret ()
  | Some r =>
      match ApplyQuotaResult.Reporter r with
      | None => mret ()
      | Some _ => call CallQuotaClose
      end
  end.

(** ** Register *)

(** [Interval * (Times + 1)] on [int32]. *)
Definition leaseTTL (hc : HealthCheck.t) : Z :=
  int32_mul (HealthCheck.Interval hc) (int32_add (HealthCheck.Times hc) 1).

Section Register.
Variable E : Externals.
Variable o : Oracle.

Import MicroServiceInstance.

(** Lines 45-54: status, instance id and timestamps. *)
Definition fillIdentity (instance : MicroServiceInstance.t) : MicroServiceInstance.t :=
  let status := if decide (Status instance = "") then MSI_UP else Status instance in
  let instanceId :=
    if decide (InstanceId instance = "") then GetInstanceId o else InstanceId instance in
  let timestamp := pretty (Now o) in
  mk instanceId (ServiceId instance) (Endpoints instance) (HostName instance) status
     (HealthCheck instance) timestamp timestamp (Version instance).

Definition with_HealthCheck (hc : HealthCheck.t) (instance : MicroServiceInstance.t)
    : MicroServiceInstance.t :=
  mk (InstanceId instance) (ServiceId instance) (Endpoints instance) (HostName instance)
     (Status instance) (Some hc) (Timestamp instance) (ModTimestamp instance)
     (Version instance).

Definition with_Version (v : string) (instance : MicroServiceInstance.t)
    : MicroServiceInstance.t :=
  mk (InstanceId instance) (ServiceId instance) (Endpoints instance) (HostName instance)
     (Status instance) (HealthCheck instance) (Timestamp instance) (ModTimestamp instance) v.

(** Lines 56-78: the health-check block. *)
Definition checkHealthCheck (instance : MicroServiceInstance.t)
    : MicroServiceInstance.t * option scerr.Error :=
  let renewalInterval := REGISTRY_DEFAULT_LEASE_RENEWALINTERVAL in
  let retryTimes := REGISTRY_DEFAULT_LEASE_RETRYTIMES in
  match HealthCheck instance with
  | None =>
      (with_HealthCheck (HealthCheck.mk CHECK_BY_HEARTBEAT renewalInterval retryTimes) instance,
       None)
  | Some hc =>
      match HealthCheck.Mode hc with
      | CHECK_BY_HEARTBEAT =>
          let d := leaseTTL hc in
          if (d <=? 0) || (d >=? MaxInt32)
          then (instance,
                Some (scerr.NewError ErrInvalidParams
                        "Invalid 'healthCheck' settings in request body."))
          else (instance, None)
      | CHECK_BY_PLATFORM =>
          (with_HealthCheck (HealthCheck.mk (HealthCheck.Mode hc) renewalInterval retryTimes)
             instance, None)
      | CHECK_BY_PUSH => (instance, None)
      end
  end.

(** The instance is a pointer in Go: the function returns it as it
    leaves it, next to the error. *)
Definition preProcessRegisterInstance (ctx : Ctx) (instance : MicroServiceInstance.t)
    : M (MicroServiceInstance.t * option scerr.Error) :=
  match checkHealthCheck (fillIdentity instance) with
  | (instance, Some err) => mret (instance, Some err)
  | (instance, None) =>
      let domainProject := ParseDomainProject ctx in
      st ← get_store;
      match GetService E st ctx domainProject (ServiceId instance) with
      | (Some service, None) =>
          mret (with_Version (MicroService.Version service) instance, None)
      | _ =>
          mret (instance,
                Some (scerr.NewError ErrServiceNotExists
                        "Invalid 'serviceId' in request body."))
      end
  end.

Definition reply (r : Response.t) (instanceId : string) (err : option error)
    : M (RegisterInstanceResponse.t * option error) :=
  mret (RegisterInstanceResponse.mk r instanceId, err).

(** Lines 157-220: marshal, lease grant, the transaction and the quota
    report. *)
Definition registerCommit (domainProject : string) (instance : MicroServiceInstance.t)
    (ttl : Z) (reporter : option ApplyQuotaResult.t)
    : M (RegisterInstanceResponse.t * option error) :=
  let instanceId := InstanceId instance in
  match json_Marshal E instance with
  | inr err => reply (CreateResponse ErrInternal (Error_string err)) "" (Some err)
  | inl data =>
      granted ← LeaseGrant o ttl;
      match granted with
      | inr err =>
          reply (CreateResponse ErrUnavailableBackend (Error_string err)) "" (Some err)
      | inl leaseID =>
          let key :=
            GenerateInstanceKey (RootKey E) domainProject (ServiceId instance) instanceId in
          let hbKey :=
            GenerateInstanceLeaseKey (RootKey E) domainProject (ServiceId instance)
              instanceId in
          let opts := [OpPut key data leaseID; OpPut hbKey (pretty leaseID) leaseID] in
          committed ← TxnWithCmp o opts
            [OpCmpVer (GenerateServiceKey (RootKey E) domainProject (ServiceId instance))
               CMP_NOT_EQUAL 0]
            [];
          match committed with
          | inr err =>
              reply (CreateResponse ErrUnavailableBackend (Error_string err)) "" (Some err)
          | inl resp =>
              if negb (PluginResponse.Succeeded resp)
              then reply (CreateResponse ErrServiceNotExists "Service does not exist.") ""
                     None
              else
                _ ← ReportUsedQuota reporter;   (* a failure is only logged *)
                reply (CreateResponse Response_SUCCESS
                         "Register service instance successfully.") instanceId None
          end
      end
  end.

(** Lines 130-155 and on: TTL, the quota reservation with its deferred
    release, then the commit. *)
Definition registerAdmit (ctx : Ctx) (instance : MicroServiceInstance.t)
    : M (RegisterInstanceResponse.t * option error) :=
  match HealthCheck instance with
  | None => panic nil_dereference
  | Some hc =>
      let ttl := leaseTTL hc in   (* int64 of the int32 product *)
      let domainProject := ParseDomainProject ctx in
      if negb (IsSCInstance ctx)
      then
        let res := ApplyQuotaResource.mk domainProject (ServiceId instance) 1 in
        reporter ← Apply4Quotas o res;
        defer (Close (Some reporter))
          match ApplyQuotaResult.Err reporter with
          | Some err =>
              reply (CreateResponseWithSCErr err) ""
                (if scerr.InternalError err then Some (SCError err) else None)
          | None => registerCommit domainProject instance ttl (Some reporter)
          end
      else registerCommit domainProject instance ttl None
  end.

Definition Register (ctx : Ctx) (in_ : RegisterInstanceRequest.t)
    : M (RegisterInstanceResponse.t * option error) :=
  match Validate E (RegisterRequest in_) with
  | Some err => reply (CreateResponse ErrInvalidParams (Error_string err)) "" None
  | None =>
      let instance := RegisterInstanceRequest.Instance in_ in
      st ← get_store;
      match InstanceExist E st ctx instance with
      | (_, Some checkErr) =>
          reply (CreateResponseWithSCErr checkErr) ""
            (if scerr.InternalError checkErr then Some (SCError checkErr) else None)
      | (oldInstanceId, None) =>
          if decide (oldInstanceId ≠ "")
          then reply (CreateResponse Response_SUCCESS "instance already exists")
                 oldInstanceId None
          else
            '(instance, err) ← preProcessRegisterInstance ctx instance;
            match err with
            | Some err => reply (CreateResponseWithSCErr err) "" None
            | None => registerAdmit ctx instance
            end
      end
  end.
End Register.

(** ** HeartbeatSet *)

Section HeartbeatSet.
(** [HeartbeatUtil domainProject serviceId instanceId] is the error of
    the lease renewal of one instance, if any; [schedule] is the order in
    which the pool's tasks deliver their results. *)
Variable HeartbeatUtil : string → string → string → option error.
Variable schedule : list nat.

(** The state of the scheduling loop, lines 335-348. *)
Record Fanout := mkFanout {
  existFlag : gmap string bool;
  noMultiCounter : Z;
  scheduled : list HeartbeatSetElement.t;   (* tasks handed to the pool *)
  warnings : list string                    (* log.Warnf *)
}.

Definition fanout_step (f : Fanout) (heartbeatElement : HeartbeatSetElement.t) : Fanout :=
  let serviceId := HeartbeatSetElement.ServiceId heartbeatElement in
  let instanceId := HeartbeatSetElement.InstanceId heartbeatElement in
  match existFlag f !! (serviceId +:+ instanceId) with
  | Some _ =>
      mkFanout (existFlag f) (noMultiCounter f) (scheduled f)
        (warnings f ++
           ["instance[" +:+ serviceId +:+ "/" +:+ instanceId +:+
            "] is duplicate in heartbeat set"])
  | None =>
      mkFanout (<[serviceId +:+ instanceId := true]> (existFlag f))
        (noMultiCounter f + 1) (scheduled f ++ [heartbeatElement]) (warnings f)
  end.

Definition fanout (instances : list HeartbeatSetElement.t) : Fanout :=
  foldl fanout_step (mkFanout ∅ 0 [] []) instances.

Definition getHeartbeatFunc (domainProject : string) (element : HeartbeatSetElement.t)
    : InstanceHbRst.t :=
  let serviceId := HeartbeatSetElement.ServiceId element in
  let instanceId := HeartbeatSetElement.InstanceId element in
  match HeartbeatUtil domainProject serviceId instanceId with
  | Some err => InstanceHbRst.mk serviceId instanceId (Error_string err)
  | None => InstanceHbRst.mk serviceId instanceId ""
  end.

(** The result channel: every scheduled task sends once, in the order
    the pool runs them. *)
Fixpoint deliver_aux {A} (n : nat) (picks : list nat) (pending : list A) : list A :=
  match n with
  | O => []
  | S n =>
      let i := (hd 0 picks `mod` length pending)%nat in
      match pending !! i with
      | Some x => x :: deliver_aux n (tl picks) (delete i pending)
      | None => []
      end
  end.

Definition deliver {A} (picks : list nat) (pending : list A) : list A :=
  deliver_aux (length pending) picks pending.

(** The state of the reading loop, lines 349-364. *)
Record Aggregate := mkAggregate {
  count : Z;
  successFlag : bool;
  failFlag : bool;
  instanceHbRstArr : list InstanceHbRst.t
}.

Definition receive (a : Aggregate) (heartbeat : InstanceHbRst.t) : Aggregate :=
  if decide (InstanceHbRst.ErrMessage heartbeat ≠ "")
  then mkAggregate (count a + 1) (successFlag a) true (instanceHbRstArr a ++ [heartbeat])
  else mkAggregate (count a + 1) true (failFlag a) (instanceHbRstArr a ++ [heartbeat]).

(** [for heartbeat := range instancesHbRst]: the loop ends once the
    channel is closed and drained; on an open, empty channel that no
    task will write to any more it blocks for ever ([None]). *)
Fixpoint drain (noMultiCounter : Z) (arrivals : list InstanceHbRst.t) (closed : bool)
    (a : Aggregate) : option Aggregate :=
  match arrivals with
  | [] => if closed then Some a else None
  | heartbeat :: arrivals =>
      let a := receive a heartbeat in
      drain noMultiCounter arrivals (closed || bool_decide (count a = noMultiCounter)) a
  end.

Definition HeartbeatSet (ctx : Ctx) (in_ : HeartbeatSetRequest.t)
    : option (HeartbeatSetResponse.t * option error) :=
  if decide (HeartbeatSetRequest.Instances in_ = [])
  then Some (HeartbeatSetResponse.mk
               (CreateResponse ErrInvalidParams "Request format invalid.") [], None)
  else
    let domainProject := ParseDomainProject ctx in
    let f := fanout (HeartbeatSetRequest.Instances in_) in
    let instancesHbRst := deliver schedule (getHeartbeatFunc domainProject <$> scheduled f) in
    a ← drain (noMultiCounter f) instancesHbRst false (mkAggregate 0 false false []);
    if negb (failFlag a) && successFlag a
    then Some (HeartbeatSetResponse.mk
                 (CreateResponse Response_SUCCESS "Heartbeat set successfully.")
                 (instanceHbRstArr a), None)
    else Some (HeartbeatSetResponse.mk
                 (CreateResponse ErrInstanceNotExists "Heartbeat set failed.")
                 (instanceHbRstArr a), None).
End HeartbeatSet.

(** ** Find *)

Section Find.
Variable E : Externals.
Variable o : Oracle.

Import FindInstancesRequest.

Definition AddServiceVersionRule (domainProject : string) (consumer : MicroService.t)
    (provider : MicroServiceKey.t) : M (option error) :=
  _ ← call (CallAddServiceVersionRule domainProject consumer provider);
  mret (AddRuleAnswer o).

Definition with_Environment (env : string) (k : MicroServiceKey.t) : MicroServiceKey.t :=
  MicroServiceKey.mk (MicroServiceKey.Tenant k) env (MicroServiceKey.AppId k)
    (MicroServiceKey.ServiceName k) (MicroServiceKey.Alias k) (MicroServiceKey.Version k).

Definition with_Tenant (tenant : string) (k : MicroServiceKey.t) : MicroServiceKey.t :=
  MicroServiceKey.mk tenant (MicroServiceKey.Environment k) (MicroServiceKey.AppId k)
    (MicroServiceKey.ServiceName k) (MicroServiceKey.Alias k) (MicroServiceKey.Version k).

Definition with_KeyVersion (v : string) (k : MicroServiceKey.t) : MicroServiceKey.t :=
  MicroServiceKey.mk (MicroServiceKey.Tenant k) (MicroServiceKey.Environment k)
    (MicroServiceKey.AppId k) (MicroServiceKey.ServiceName k) (MicroServiceKey.Alias k) v.

(** Lines 516-534: the consumer service, or the reply that ends the call. *)
Definition findConsumer (st : Store) (ctx : Ctx) (in_ : FindInstancesRequest.t)
    : MicroService.t + FindInstancesResponse.t * option error :=
  if decide (ConsumerServiceId in_ ≠ "")
  then
    match GetService E st ctx (ParseDomainProject ctx) (ConsumerServiceId in_) with
    | (_, Some err) =>
        inr (FindInstancesResponse.mk (CreateResponse ErrInternal (Error_string err)) [],
             Some err)
    | (None, None) =>
        inr (FindInstancesResponse.mk
               (CreateResponse ErrServiceNotExists
                  ("Consumer[" +:+ ConsumerServiceId in_ +:+ "] does not exist.")) [],
             None)
    | (Some service, None) => inl service
    end
  else inl (MicroService.mk "" (Environment in_) "" "" "" "").

(** Lines 536-565: the provider key, the context it is looked up under,
    and whether the provider is shared. *)
Definition findProvider (ctx : Ctx) (in_ : FindInstancesRequest.t) (service : MicroService.t)
    : Ctx * MicroServiceKey.t * bool :=
  let provider :=
    MicroServiceKey.mk (ParseTargetDomainProject ctx) (MicroService.Environment service)
      (AppId in_) (ServiceName in_) (ServiceName in_) (VersionRule in_) in
  if IsShared E provider
  then (ctx, with_Environment (MicroService.Environment (Service E)) provider, true)
  else
    let ctx := SetTargetDomainProject ctx (ParseDomain ctx) (ParseProject ctx) in
    (ctx, with_Tenant (ParseTargetDomainProject ctx) provider, false).

(** The closure [findFlag]; it reads the variable [provider] when it is
    called, and that variable may hold nil by then. *)
Definition findFlag (shared : bool) (in_ : FindInstancesRequest.t) (service : MicroService.t)
    (provider : option MicroServiceKey.t) : M string :=
  match provider with
  | None => panic nil_dereference
  | Some provider =>
      mret ("Consumer[" +:+ ConsumerServiceId in_ +:+ "][" +:+
            MicroService.Environment service +:+ "/" +:+ MicroService.AppId service +:+ "/" +:+
            MicroService.ServiceName service +:+ "/" +:+ MicroService.Version service +:+
            (if shared then "] find shared provider[" else "] find provider[") +:+
            MicroServiceKey.Environment provider +:+ "/" +:+
            MicroServiceKey.AppId provider +:+ "/" +:+
            MicroServiceKey.ServiceName provider +:+ "/" +:+
            MicroServiceKey.Version provider +:+ "]")
  end.

Definition reshapeProviderKey (st : Store) (ctx : Ctx) (provider : MicroServiceKey.t)
    (providerId : string) : option MicroServiceKey.t * option error :=
  match GetService E st ctx (MicroServiceKey.Tenant provider) providerId with
  | (None, err) => (None, err)
  | (Some providerService, _) =>
      let versionRule := MicroServiceKey.Version provider in
      (Some (with_KeyVersion versionRule
               (MicroServiceToKey (MicroServiceKey.Tenant provider) providerService)),
       None)
  end.

Definition found (r : Response.t) (instances : list MicroServiceInstance.t)
    (err : option error) (ctx : Ctx) : M (FindInstancesResponse.t * option error * Ctx) :=
  mret (FindInstancesResponse.mk r instances, err, ctx).

(** Lines 607-616: the revision cursor. *)
Definition findReply (ctx : Ctx) (rev : string) (item : VersionRuleCacheItem.t)
    : M (FindInstancesResponse.t * option error * Ctx) :=
  let instances :=
    if decide (rev = VersionRuleCacheItem.Rev item)
    then []
    else VersionRuleCacheItem.Instances item in
  let ctx := SetContext ctx CTX_RESPONSE_REVISION (VString (VersionRuleCacheItem.Rev item)) in
  found (CreateResponse Response_SUCCESS "Query service instances successfully.")
    instances None ctx.

(** The context is the request's mutable string context: the handler
    returns it as it leaves it. *)
Definition Find (ctx : Ctx) (in_ : FindInstancesRequest.t)
    : M (FindInstancesResponse.t * option error * Ctx) :=
  match Validate E (FindRequest in_) with
  | Some err => found (CreateResponse ErrInvalidParams (Error_string err)) [] None ctx
  | None =>
      let domainProject := ParseDomainProject ctx in
      st ← get_store;
      match findConsumer st ctx in_ with
      | inr (resp, err) => mret (resp, err, ctx)
      | inl service =>
          let '(ctx, provider, shared) := findProvider ctx in_ service in
          let rev := ctx_string ctx CTX_REQUEST_REVISION in
          match FindInstances_Get E st ctx service provider (Tags in_) rev with
          | (_, Some err) => found (CreateResponse ErrInternal (Error_string err)) [] (Some err) ctx
          | (None, None) =>
              flag ← findFlag shared in_ service (Some provider);
              found (CreateResponse ErrServiceNotExists
                       (flag +:+ " failed, provider does not exist.")) [] None ctx
          | (Some item, None) =>
              if bool_decide (ConsumerServiceId in_ ≠ "") &&
                 bool_decide (VersionRuleCacheItem.ServiceIds item ≠ []) &&
                 negb (ExistVersionRule E st ctx (ConsumerServiceId in_) provider)
              then
                match reshapeProviderKey st ctx provider
                        (default "" (head (VersionRuleCacheItem.ServiceIds item))) with
                | (Some provider, _) =>
                    err ← AddServiceVersionRule domainProject service provider;
                    match err with
                    | Some err =>
                        found (CreateResponse ErrInternal (Error_string err)) [] (Some err) ctx
                    | None => findReply ctx rev item
                    end
                | (None, _) =>
                    (* [provider] is nil here and [findFlag] dereferences it *)
                    flag ← findFlag shared in_ service None;
                    found (CreateResponse ErrServiceNotExists
                             (flag +:+ " failed, provider does not exist.")) [] None ctx
                end
              else findReply ctx rev item
          end
      end
  end.
End Find.

(** ** The registry as a transition system

    The store changes when [Register] commits, when a lease ends (revoked
    by [Unregister] or expired), when an instance record is updated and
    when the service administration, which is not part of this file,
    writes or deletes a service key.

    Modelled from the spec: the update of an instance record by
    [UpdateStatus] and [UpdateInstanceProperties] (section 4.4), "write
    back preserving the same lease (the put uses the existing lease id)";
    the writer is declared in the service util package. *)

Definition World_init : World := mkWorld ∅ ∅ [].

Inductive step (E : Externals) : World → World → Prop :=
  | step_Register o ctx in_ w r w' :
      Register E o ctx in_ w = Done r w' → step E w w'
  | step_lease_end leaseID w r w' :
      LeaseRevoke leaseID w = Done r w' → step E w w'
  | step_instance_update suffix value kv w :
      store w !! (lease_prefix (RootKey E) +:+ suffix) = Some kv →
      step E w (set_store
                  (apply_op (store w)
                     (OpPut (instance_prefix (RootKey E) +:+ suffix) value
                        (KeyValue.Lease kv)))
                  w)
  | step_service_put domainProject serviceId value w :
      step E w (set_store
                  (apply_op (store w)
                     (OpPut (GenerateServiceKey (RootKey E) domainProject serviceId) value 0))
                  w)
  | step_service_delete domainProject serviceId w :
      step E w (set_store
                  (apply_op (store w)
                     (OpDelete (GenerateServiceKey (RootKey E) domainProject serviceId)))
                  w).

Definition reachable (E : Externals) (w : World) : Prop := rtc (step E) World_init w.

(** The instance key and the lease key of the same instance are owned by
    the same lease, or are both absent. *)
Definition paired (root : string) (st : Store) : Prop :=
  ∀ suffix : string,
    KeyValue.Lease <$> st !! (instance_prefix root +:+ suffix) =
    KeyValue.Lease <$> st !! (lease_prefix root +:+ suffix).

(** The calls a handler added to the log. *)
Definition new_calls (w w' : World) : list Call :=
  drop (length (calls w)) (calls w').

(** A per-element result that carries an error message, and the key the
    scheduling loop files an element under. *)
Definition failed (heartbeat : InstanceHbRst.t) : bool :=
  bool_decide (InstanceHbRst.ErrMessage heartbeat ≠ "").

Definition composite_key (e : HeartbeatSetElement.t) : string :=
  HeartbeatSetElement.ServiceId e +:+ HeartbeatSetElement.InstanceId e.

(** The calls [ReportUsedQuota] and [Close] log for a reservation. *)
Definition report_calls (reporter : option ApplyQuotaResult.t) : list Call :=
  match reporter ≫= ApplyQuotaResult.Reporter with
  | Some _ => [CallReportUsedQuota]
  | None => []
  end.

Definition close_calls (reporter : option ApplyQuotaResult.t) : list Call :=
  match reporter ≫= ApplyQuotaResult.Reporter with
  | Some _ => [CallQuotaClose]
  | None => []
  end.

Definition log_calls (cs : list Call) (w : World) : World :=
  mkWorld (store w) (leases w) (calls w ++ cs).

(** The transaction [Register] submits for an instance. *)
Definition commit_puts (root domainProject : string) (instance : MicroServiceInstance.t)
    (data : string) (leaseID : Z) : list PluginOp :=
  let serviceId := MicroServiceInstance.ServiceId instance in
  let instanceId := MicroServiceInstance.InstanceId instance in
  [OpPut (GenerateInstanceKey root domainProject serviceId instanceId) data leaseID;
   OpPut (GenerateInstanceLeaseKey root domainProject serviceId instanceId)
     (pretty leaseID) leaseID].

Definition commit_compare (root domainProject : string) (instance : MicroServiceInstance.t)
    : list CompareOp :=
  [OpCmpVer (GenerateServiceKey root domainProject (MicroServiceInstance.ServiceId instance))
     CMP_NOT_EQUAL 0].

Definition commit_call (root domainProject : string) (instance : MicroServiceInstance.t)
    (data : string) (leaseID : Z) : Call :=
  CallTxnWithCmp (commit_puts root domainProject instance data leaseID)
    (commit_compare root domainProject instance) [].

(** The calls a run of [Register] may log, and what it may do to the
    store: leave it, or apply the two puts of the commit on a store in
    which the service key has a version. *)
Definition Register_call_shape (E : Externals) (o : Oracle) (ctx : Ctx)
    (cs : list Call) (c : Call) : Prop :=
  (∃ res, c = CallApply4Quotas res) ∨ c = CallQuotaClose ∨ c = CallReportUsedQuota ∨
  (∃ ttl, c = CallLeaseGrant ttl) ∨
  ∃ instance data leaseID ttl pre post,
    LeaseGrantAnswer o = inl leaseID ∧
    cs = pre ++ [CallLeaseGrant ttl; c] ++ post ∧
    c = commit_call (RootKey E) (ParseDomainProject ctx) instance data leaseID.

Definition Register_store_shape (E : Externals) (ctx : Ctx) (st st' : Store) : Prop :=
  st' = st ∨
  ∃ instance data leaseID,
    version_of st
      (GenerateServiceKey (RootKey E) (ParseDomainProject ctx)
         (MicroServiceInstance.ServiceId instance)) ≠ 0 ∧
    st' = apply_ops st (commit_puts (RootKey E) (ParseDomainProject ctx) instance data leaseID).

(** ** A sample deployment

    Concrete collaborators on which the handlers can be run: a store-backed
    service lookup, an endpoint index read off the instance records, and
    a find cache with one entry per environment. *)

Module Sample.
Fixpoint strip_prefix (p s : string) : option string :=
  match p, s with
  | EmptyString, _ => Some s
  | String a p', String b s' => if decide (a = b) then strip_prefix p' s' else None
  | _, EmptyString => None
  end.

Definition root : string := "/registry".

Definition fingerprint (i : MicroServiceInstance.t) : string :=
  "|" +:+ MicroServiceInstance.HostName i +:+ "|" +:+
  String.concat "," (MicroServiceInstance.Endpoints i).

Definition marshal (i : MicroServiceInstance.t) : string :=
  MicroServiceInstance.InstanceId i +:+ fingerprint i.

Definition exists_by_endpoints (st : Store) (ctx : Ctx) (i : MicroServiceInstance.t)
    : string * option scerr.Error :=
  let pre := instance_prefix root +:+ ParseDomainProject ctx +:+ "/" +:+
             MicroServiceInstance.ServiceId i +:+ "/" in
  let same (kv : string * KeyValue.t) : bool :=
    match strip_prefix pre kv.1 with
    | Some instanceId => bool_decide (KeyValue.Value kv.2 = instanceId +:+ fingerprint i)
    | None => false
    end in
  match filter (λ kv, Is_true (same kv)) (map_to_list st) with
  | (k, _) :: _ => (default "" (strip_prefix pre k), None)
  | [] => ("", None)
  end.

Definition service_of_store (st : Store) (ctx : Ctx) (domainProject serviceId : string)
    : option MicroService.t * option error :=
  match st !! GenerateServiceKey root domainProject serviceId with
  | Some kv => (Some (MicroService.mk serviceId "dev" "app" serviceId "" (KeyValue.Value kv)), None)
  | None => (None, None)
  end.

Definition instance (instanceId serviceId : string) : MicroServiceInstance.t :=
  MicroServiceInstance.mk instanceId serviceId ["http://h:9"] "h" "UP"
    (Some (HealthCheck.mk CHECK_BY_HEARTBEAT 30 3)) "1000" "1000" "1.0.0".

Definition cache (st : Store) (ctx : Ctx) (consumer : MicroService.t)
    (provider : MicroServiceKey.t) (tags : list string) (rev : string)
    : option VersionRuleCacheItem.t * option error :=
  if decide (MicroServiceKey.Environment provider = "production")
  then (Some (VersionRuleCacheItem.mk ["p1"]
                [instance "I1" "p1"; instance "I2" "p1"; instance "I3" "p1"] "R1"), None)
  else if decide (MicroServiceKey.Environment provider = "dev")
  then (Some (VersionRuleCacheItem.mk ["q1"] [instance "J1" "q1"] "R7"), None)
  else (None, None).

Definition externals : Externals := {|
  RootKey := root;
  Service := MicroService.mk "sc" "production" "default" "SERVICECENTER" "" "1.0.0";
  IsShared := λ k, bool_decide (MicroServiceKey.ServiceName k = "SERVICECENTER");
  Validate := λ _, None;
  InstanceExist := exists_by_endpoints;
  GetService := service_of_store;
  json_Marshal := λ i, inl (marshal i);
  FindInstances_Get := cache;
  ExistVersionRule := λ _ _ _ _, true
|}.


(** The same deployment before any dependency edge is recorded. *)
Definition first_contact : Externals := {|
  RootKey := root;
  Service := Service externals;
  IsShared := IsShared externals;
  Validate := λ _, None;
  InstanceExist := exists_by_endpoints;
  GetService := service_of_store;
  json_Marshal := λ i, inl (marshal i);
  FindInstances_Get := cache;
  ExistVersionRule := λ _ _ _ _, false
|}.

Definition find (consumerId serviceName : string) : FindInstancesRequest.t :=
  FindInstancesRequest.mk consumerId "app" serviceName "latest" "dev" [].

Definition oracle : Oracle := {|
  GetInstanceId := "I1";
  Now := 1000;
  QuotaAnswer := ApplyQuotaResult.mk None (Some None);
  LeaseGrantAnswer := inl 77;
  TxnError := None;
  AddRuleAnswer := None
|}.

Definition tenant : Ctx :=
  <[CTX_DOMAIN := VString "default"]> (<[CTX_PROJECT := VString "default"]> ∅).

(** The registry registering itself. *)
Definition self : Ctx := <[CTX_SC_SELF := VBool true]> tenant.

Definition request (hc : option HealthCheck.t) : RegisterInstanceRequest.t :=
  RegisterInstanceRequest.mk
    (MicroServiceInstance.mk "" "s1" ["http://h:9"] "h" "" hc "" "" "").

Definition heartbeat_30_3 : option HealthCheck.t :=
  Some (HealthCheck.mk CHECK_BY_HEARTBEAT 30 3).

(** A store that holds the service [s1] only. *)
Definition with_service : World :=
  mkWorld (<[GenerateServiceKey root "default/default" "s1" := KeyValue.mk "1.0.0" 0 1]> ∅)
    ∅ [].

(** The committed record of instance [I1] of [s1] under lease 77. *)
Definition registered_store : Store :=
  <[GenerateInstanceLeaseKey root "default/default" "s1" "I1" := KeyValue.mk "77" 77 1]>
    (<[GenerateInstanceKey root "default/default" "s1" "I1" :=
         KeyValue.mk "I1|h|http://h:9" 77 1]> (store with_service)).

Definition registered : World := mkWorld registered_store (<[77 := 120]> ∅) [].

Definition lease_missing (domainProject serviceId instanceId : string) : option error :=
  if decide (instanceId = "I_missing")
  then Some (PlainError "leaseId not exist")
  else None.

Definition element := HeartbeatSetElement.mk.
End Sample.

(** ** Unregister, Heartbeat and the instance readers

    The handlers of the file that end a lease, renew one, or read
    instances.  Their collaborators of the service util package are
    gathered in [Readers]; [Validate] is applied here to the requests of
    [LookupRequest]. *)

Module UnregisterInstanceRequest.
Record t := mk { ServiceId : string; InstanceId : string }.
End UnregisterInstanceRequest.

Module HeartbeatRequest.
Record t := mk { ServiceId : string; InstanceId : string }.
End HeartbeatRequest.

Module GetOneInstanceRequest.
Record t := mk {
  ConsumerServiceId : string;
  ProviderServiceId : string;
  ProviderInstanceId : string;
  Tags : list string
}.
End GetOneInstanceRequest.

Module GetOneInstanceResponse.
Record t := mk { Response : Response.t; Instance : option MicroServiceInstance.t }.
End GetOneInstanceResponse.

Module GetInstancesRequest.
Record t := mk {
  ConsumerServiceId : string;
  ProviderServiceId : string;
  Tags : list string
}.
End GetInstancesRequest.

Module GetInstancesResponse.
Record t := mk { Response : Response.t; Instances : list MicroServiceInstance.t }.
End GetInstancesResponse.

Inductive LookupRequest :=
  | UnregisterRequest (r : UnregisterInstanceRequest.t)
  | HeartbeatOneRequest (r : HeartbeatRequest.t)
  | GetOneRequest (r : GetOneInstanceRequest.t)
  | GetAllRequest (r : GetInstancesRequest.t).

(** What [serviceUtil.HeartbeatUtil] returns. *)
Module HeartbeatResult.
Record t := mk { LeaseID : Z; TTL : Z; Err : option error; IsInnerErr : bool }.
End HeartbeatResult.

Record Readers := {
  ValidateLookup : LookupRequest → option error;
  InstanceExistById : Store → Ctx → string → string → string → bool * option error;
  GetLeaseId : Store → Ctx → string → string → string → Z * option error;
  HeartbeatUtil : Store → Ctx → string → string → string → HeartbeatResult.t;
  ServiceExist : Store → Ctx → string → string → bool;
  GetTagsUtils : Store → Ctx → string → string → gmap string string * option error;
  Accessible : Store → Ctx → string → string → option scerr.Error;
  GetInstance : Store → Ctx → string → string → string →
                option MicroServiceInstance.t * option error;
  GetAllInstancesOfOneService : Store → Ctx → string → string →
                                list MicroServiceInstance.t * option error
}.

(** Modelled from the spec: "lease_revoke(lease_id)" of the gateway
    (section 4.1), which may fail with BackendUnavailable; a failed call
    leaves the store and the leases as they were. *)
Definition Registry_LeaseRevoke (failure : option error) (leaseID : Z) : M (option error) :=
  match failure with
  | Some err => _ ← call (CallLeaseRevoke leaseID); mret (Some err)
  | None => _ ← LeaseRevoke leaseID; mret None
  end.

Section Lookup.
Variable U : Readers.

(** Lines 272-286; the pair is [(error, isInnerErr)]. *)
Definition revokeInstance (failure : option error) (ctx : Ctx)
    (domainProject serviceId instanceId : string) : M (option error * bool) :=
  st ← get_store;
  match GetLeaseId U st ctx domainProject serviceId instanceId with
  | (_, Some err) => mret (Some err, true)
  | (leaseID, None) =>
      if decide (leaseID = -1)
      then mret (Some (PlainError "instance's leaseId not exist."), false)
      else
        err ← Registry_LeaseRevoke failure leaseID;
        match err with
        | Some err => mret (Some err, true)
        | None => mret (None, false)
        end
  end.

(** Lines 223-270; [failure] is what the backend answers to the revoke.
    The response message has the one field [Response]. *)
Definition Unregister (failure : option error) (ctx : Ctx) (in_ : UnregisterInstanceRequest.t)
    : M (Response.t * option error) :=
  match ValidateLookup U (UnregisterRequest in_) with
  | Some err => mret (CreateResponse ErrInvalidParams (Error_string err), None)
  | None =>
      let domainProject := ParseDomainProject ctx in
      let serviceId := UnregisterInstanceRequest.ServiceId in_ in
      let instanceId := UnregisterInstanceRequest.InstanceId in_ in
      st ← get_store;
      match InstanceExistById U st ctx domainProject serviceId instanceId with
      | (_, Some err) => mret (CreateResponse ErrInternal (Error_string err), Some err)
      | (false, None) =>
          mret (CreateResponse ErrInstanceNotExists "Service instance does not exist.", None)
      | (true, None) =>
          revoked ← revokeInstance failure ctx domainProject serviceId instanceId;
          match revoked with
          | (Some err, true) =>
              mret (CreateResponse ErrUnavailableBackend (Error_string err), Some err)
          | (Some err, false) =>
              mret (CreateResponse ErrInstanceNotExists (Error_string err), None)
          | (None, _) =>
              mret (CreateResponse Response_SUCCESS
                      "Unregister service instance successfully.", None)
          end
      end
  end.

(** Lines 288-324; a renewed TTL of 0 is logged and still a success. *)
Definition Heartbeat (ctx : Ctx) (in_ : HeartbeatRequest.t) : M (Response.t * option error) :=
  match ValidateLookup U (HeartbeatOneRequest in_) with
  | Some err => mret (CreateResponse ErrInvalidParams (Error_string err), None)
  | None =>
      let domainProject := ParseDomainProject ctx in
      st ← get_store;
      let result :=
        HeartbeatUtil U st ctx domainProject (HeartbeatRequest.ServiceId in_)
          (HeartbeatRequest.InstanceId in_) in
      match HeartbeatResult.Err result with
      | Some err =>
          if HeartbeatResult.IsInnerErr result
          then mret (CreateResponse ErrInternal (Error_string err), Some err)
          else mret (CreateResponse ErrInstanceNotExists "Service instance does not exist.",
                     None)
      | None =>
          mret (CreateResponse Response_SUCCESS
                  "Update service instance heartbeat successfully.", None)
      end
  end.

(** The renewal errors as [HeartbeatSet] sees them, lines 387-391. *)
Definition renewal_error (st : Store) (ctx : Ctx) (domainProject serviceId instanceId : string)
    : option error :=
  HeartbeatResult.Err (HeartbeatUtil U st ctx domainProject serviceId instanceId).

(** Lines 457-461: the first requested tag the provider does not have. *)
Fixpoint checkTags (tagsFromETCD : gmap string string) (tags : list string)
    : option scerr.Error :=
  match tags with
  | [] => None
  | tag :: tags =>
      match tagsFromETCD !! tag with
      | None =>
          Some (scerr.NewError ErrTagNotExists
                  ("Provider tags do not contain '" +:+ tag +:+ "'"))
      | Some _ => checkTags tagsFromETCD tags
      end
  end.

(** Lines 448-462: the tag filter. *)
Definition tagPreCheck (st : Store) (ctx : Ctx) (targetDomainProject providerServiceId : string)
    (tags : list string) : option scerr.Error :=
  if decide (tags ≠ [])
  then
    match GetTagsUtils U st ctx targetDomainProject providerServiceId with
    | (_, Some err) =>
        Some (scerr.NewError ErrInternal
                ("An error occurred in query provider tags(" +:+ Error_string err +:+ ")"))
    | (tagsFromETCD, None) =>
        if decide (tagsFromETCD = ∅)
        then Some (scerr.NewError ErrTagNotExists "Provider has no tag")
        else checkTags tagsFromETCD tags
    end
  else None.

(** Lines 442-466. *)
Definition getInstancePreCheck (st : Store) (ctx : Ctx)
    (providerServiceId consumerServiceId : string) (tags : list string)
    : option scerr.Error :=
  let targetDomainProject := ParseTargetDomainProject ctx in
  if negb (ServiceExist U st ctx targetDomainProject providerServiceId)
  then Some (scerr.NewError ErrServiceNotExists "Provider serviceId is invalid")
  else
    match tagPreCheck st ctx targetDomainProject providerServiceId tags with
    | Some err => Some err
    | None => Accessible U st ctx consumerServiceId providerServiceId
    end.

(** Lines 396-440. *)
Definition GetOneInstance (ctx : Ctx) (in_ : GetOneInstanceRequest.t)
    : M (GetOneInstanceResponse.t * option error) :=
  match ValidateLookup U (GetOneRequest in_) with
  | Some err =>
      mret (GetOneInstanceResponse.mk (CreateResponse ErrInvalidParams (Error_string err)) None,
            None)
  | None =>
      st ← get_store;
      match getInstancePreCheck st ctx (GetOneInstanceRequest.ProviderServiceId in_)
              (GetOneInstanceRequest.ConsumerServiceId in_) (GetOneInstanceRequest.Tags in_) with
      | Some checkErr =>
          mret (GetOneInstanceResponse.mk (CreateResponseWithSCErr checkErr) None,
                if scerr.InternalError checkErr then Some (SCError checkErr) else None)
      | None =>
          let serviceId := GetOneInstanceRequest.ProviderServiceId in_ in
          let instanceId := GetOneInstanceRequest.ProviderInstanceId in_ in
          match GetInstance U st ctx (ParseTargetDomainProject ctx) serviceId instanceId with
          | (_, Some err) =>
              mret (GetOneInstanceResponse.mk
                      (CreateResponse ErrInternal (Error_string err)) None, Some err)
          | (None, None) =>
              mret (GetOneInstanceResponse.mk
                      (CreateResponse ErrInstanceNotExists "Service instance does not exist.")
                      None, None)
          | (Some instance, None) =>
              mret (GetOneInstanceResponse.mk
                      (CreateResponse Response_SUCCESS "Get instance successfully.")
                      (Some instance), None)
          end
      end
  end.

(** Lines 468-503. *)
Definition GetInstances (ctx : Ctx) (in_ : GetInstancesRequest.t)
    : M (GetInstancesResponse.t * option error) :=
  match ValidateLookup U (GetAllRequest in_) with
  | Some err =>
      mret (GetInstancesResponse.mk (CreateResponse ErrInvalidParams (Error_string err)) [],
            None)
  | None =>
      st ← get_store;
      match getInstancePreCheck st ctx (GetInstancesRequest.ProviderServiceId in_)
              (GetInstancesRequest.ConsumerServiceId in_) (GetInstancesRequest.Tags in_) with
      | Some checkErr =>
          mret (GetInstancesResponse.mk (CreateResponseWithSCErr checkErr) [],
                if scerr.InternalError checkErr then Some (SCError checkErr) else None)
      | None =>
          match GetAllInstancesOfOneService U st ctx (ParseTargetDomainProject ctx)
                  (GetInstancesRequest.ProviderServiceId in_) with
          | (_, Some err) =>
              mret (GetInstancesResponse.mk (CreateResponse ErrInternal (Error_string err)) [],
                    Some err)
          | (instances, None) =>
              mret (GetInstancesResponse.mk
                      (CreateResponse Response_SUCCESS "Query service instances successfully.")
                      instances, None)
          end
      end
  end.
End Lookup.

(** The calls of the commit phase that go to the registry backend. *)
Definition backend_call (c : Call) : Prop :=
  (∃ ttl, c = CallLeaseGrant ttl) ∨ (∃ success cmps fail, c = CallTxnWithCmp success cmps fail).

(** A run of [Register] from [w] to [w'], with the calls it logged split
    in the quota reservation [pre], the commit phase [mid] and the
    release [post]: the run left the store, or it committed. *)
Definition Register_summary (E : Externals) (o : Oracle) (ctx : Ctx)
    (in_ : RegisterInstanceRequest.t) (w : World)
    (resp : RegisterInstanceResponse.t) (err : option error) (w' : World)
    (pre mid post : list Call) : Prop :=
  calls w' = calls w ++ pre ++ mid ++ post ∧
  (pre = [] ∧ post = [] ∨
   IsSCInstance ctx = false ∧
   pre = [CallApply4Quotas
            (ApplyQuotaResource.mk (ParseDomainProject ctx)
               (MicroServiceInstance.ServiceId (RegisterInstanceRequest.Instance in_)) 1)] ∧
   post = close_calls (Some (QuotaAnswer o))) ∧
  ((store w' = store w ∧
    (∀ c, c ∈ mid → backend_call c) ∧
    (leases w' = leases w ∨ ∃ l ttl, leases w' = <[l := ttl]> (leases w))) ∨
   ∃ instance hc data leaseID,
     preProcessRegisterInstance E o ctx (RegisterInstanceRequest.Instance in_) w =
       Done (instance, None) w ∧
     MicroServiceInstance.HealthCheck instance = Some hc ∧
     json_Marshal E instance = inl data ∧
     LeaseGrantAnswer o = inl leaseID ∧
     version_of (store w)
       (GenerateServiceKey (RootKey E) (ParseDomainProject ctx)
          (MicroServiceInstance.ServiceId instance)) ≠ 0 ∧
     store w' =
       apply_ops (store w)
         (commit_puts (RootKey E) (ParseDomainProject ctx) instance data leaseID) ∧
     leases w' = <[leaseID := leaseTTL hc]> (leases w) ∧
     mid = [CallLeaseGrant (leaseTTL hc);
            commit_call (RootKey E) (ParseDomainProject ctx) instance data leaseID] ++
           (if decide (pre = []) then [] else report_calls (Some (QuotaAnswer o))) ∧
     resp = RegisterInstanceResponse.mk
              (CreateResponse Response_SUCCESS "Register service instance successfully.")
              (MicroServiceInstance.InstanceId instance) ∧
     err = None).

(** The key [HeartbeatSet] files the element of a result under. *)
Definition result_key (r : InstanceHbRst.t) : string :=
  InstanceHbRst.ServiceId r +:+ InstanceHbRst.InstanceId r.

(** What the scheduling loop of [HeartbeatSet] maintains: the flags are
    the keys of the scheduled elements, no two of which share a key. *)
Definition fanout_inv (f : Fanout) : Prop :=
  dom (existFlag f) = list_to_set (composite_key <$> scheduled f) ∧
  NoDup (composite_key <$> scheduled f).

(** The kinds of outcome that travel as a transport error. *)
Definition internal_code (c : Code) : bool := scerr.InternalError (scerr.NewError c "").

(** Readers that look the store up directly, for the sample deployment. *)
Module SampleReaders.
Definition lease_of_store (st : Store) (ctx : Ctx) (domainProject serviceId instanceId : string)
    : Z * option error :=
  match st !! GenerateInstanceLeaseKey Sample.root domainProject serviceId instanceId with
  | Some kv => (KeyValue.Lease kv, None)
  | None => (-1, None)
  end.

Definition instance_in_store (st : Store) (ctx : Ctx)
    (domainProject serviceId instanceId : string) : bool * option error :=
  (bool_decide (is_Some (st !! GenerateInstanceKey Sample.root domainProject serviceId
                                 instanceId)), None).

Definition renew (st : Store) (ctx : Ctx) (domainProject serviceId instanceId : string)
    : HeartbeatResult.t :=
  match st !! GenerateInstanceLeaseKey Sample.root domainProject serviceId instanceId with
  | Some kv => HeartbeatResult.mk (KeyValue.Lease kv) 120 None false
  | None => HeartbeatResult.mk (-1) 0 (Some (PlainError "leaseId not exist")) false
  end.

Definition tags_of (st : Store) (ctx : Ctx) (domainProject serviceId : string)
    : gmap string string * option error :=
  (<["zone" := "east"]> (<["tier" := "web"]> ∅), None).

Definition readers : Readers := {|
  ValidateLookup := λ _, None;
  InstanceExistById := instance_in_store;
  GetLeaseId := lease_of_store;
  HeartbeatUtil := renew;
  ServiceExist := λ st ctx domainProject serviceId,
    bool_decide (is_Some (st !! GenerateServiceKey Sample.root domainProject serviceId));
  GetTagsUtils := tags_of;
  Accessible := λ _ _ _ _, None;
  GetInstance := λ _ _ _ serviceId instanceId,
    (Some (Sample.instance instanceId serviceId), None);
  GetAllInstancesOfOneService := λ _ _ _ serviceId,
    ([Sample.instance "I1" serviceId], None)
|}.

(** A caller whose target tenant is its own. *)
Definition own_target : Ctx :=
  SetTargetDomainProject Sample.tenant "default" "default".
End SampleReaders.

(** * Properties *)

(** ** Arithmetic on [int32] *)

Lemma wrap32_id z : is_int32 z → wrap32 z = z.
Proof.
  unfold is_int32, MinInt32, MaxInt32, wrap32.
  change (2 ^ 31) with 2147483648. change (2 ^ 32) with 4294967296.
  intros ?. rewrite Z.mod_small by lia. lia.
Qed.

Lemma leaseTTL_exact hc :
  is_int32 (HealthCheck.Times hc + 1) →
  is_int32 (HealthCheck.Interval hc * (HealthCheck.Times hc + 1)) →
  leaseTTL hc = HealthCheck.Interval hc * (HealthCheck.Times hc + 1).
Proof.
  intros H1 H2. unfold leaseTTL, int32_mul, int32_add.
  rewrite (wrap32_id _ H1). by apply wrap32_id.
Qed.

Lemma leaseTTL_defaults mode :
  leaseTTL (HealthCheck.mk mode REGISTRY_DEFAULT_LEASE_RENEWALINTERVAL
              REGISTRY_DEFAULT_LEASE_RETRYTIMES) = 120.
Proof. reflexivity. Qed.

(** ** Running the handlers *)

(** The first steps of [Register], for a request that passes validation
    and for which the existence check has answered. *)
Ltac register_prologue Hvalid Hexist :=
  unfold Register, reply; rewrite Hvalid;
  unfold mbind, M_bind, get_store; rewrite Hexist.

(** Preprocessing never touches the world, and fails only as the
    health-check block or the service lookup say. *)
Lemma preProcessRegisterInstance_run E o ctx inst w :
  ∃ instance err,
    preProcessRegisterInstance E o ctx inst w = Done (instance, err) w ∧
    match checkHealthCheck (fillIdentity o inst) with
    | (checked, Some e) => instance = checked ∧ err = Some e
    | (checked, None) =>
        match GetService E (store w) ctx (ParseDomainProject ctx)
                (MicroServiceInstance.ServiceId checked) with
        | (Some service, None) =>
            instance = with_Version (MicroService.Version service) checked ∧ err = None
        | _ =>
            instance = checked ∧
            err = Some (scerr.NewError ErrServiceNotExists
                          "Invalid 'serviceId' in request body.")
        end
    end.
Proof.
  unfold preProcessRegisterInstance, mbind, M_bind, mret, M_ret, get_store.
  destruct (checkHealthCheck (fillIdentity o inst)) as [checked [e|]]; [by eauto|].
  destruct (GetService _ _ _ _ _) as [[service|] [e|]]; eauto.
Qed.

(** A valid request that matches no live instance goes through
    preprocessing and then to admission. *)
Lemma Register_fresh E o ctx in_ w :
  Validate E (RegisterRequest in_) = None →
  InstanceExist E (store w) ctx (RegisterInstanceRequest.Instance in_) = ("", None) →
  Register E o ctx in_ w =
  match preProcessRegisterInstance E o ctx (RegisterInstanceRequest.Instance in_) w with
  | Done (_, Some err) w' =>
      Done (RegisterInstanceResponse.mk (CreateResponseWithSCErr err) "", None) w'
  | Done (instance, None) w' => registerAdmit E o ctx instance w'
  | Panic msg w' => Panic msg w'
  end.
Proof.
  intros Hvalid Hfresh. register_prologue Hvalid Hfresh. simpl.
  destruct (preProcessRegisterInstance _ _ _ _ _) as [[instance [err|]] w'|]; done.
Qed.

Lemma checkHealthCheck_Some inst checked :
  checkHealthCheck inst = (checked, None) →
  is_Some (MicroServiceInstance.HealthCheck checked).
Proof.
  unfold checkHealthCheck.
  destruct (MicroServiceInstance.HealthCheck inst) as [hc|] eqn:Hhc.
  - destruct (HealthCheck.Mode hc); [destruct (_ || _)|..]; intros; simplify_eq/=;
      rewrite ?Hhc; eauto.
  - intros; simplify_eq/=; eauto.
Qed.

Lemma preProcessRegisterInstance_Some E o ctx inst w instance w' :
  preProcessRegisterInstance E o ctx inst w = Done (instance, None) w' →
  is_Some (MicroServiceInstance.HealthCheck instance).
Proof.
  destruct (preProcessRegisterInstance_run E o ctx inst w) as (i & e & -> & Hrun).
  intros; simplify_eq.
  destruct (checkHealthCheck _) as [checked [?|]] eqn:Hc; [by destruct Hrun|].
  apply checkHealthCheck_Some in Hc.
  destruct (GetService _ _ _ _ _) as [[?|] [?|]]; destruct Hrun; by simplify_eq.
Qed.

(** ** The health-check block *)

(** In PLATFORM mode, and with no health-check block, the values of the
    request never reach the product check. *)
Lemma checkHealthCheck_platform inst hc :
  MicroServiceInstance.HealthCheck inst = Some hc →
  HealthCheck.Mode hc = CHECK_BY_PLATFORM →
  checkHealthCheck inst =
  (with_HealthCheck (HealthCheck.mk CHECK_BY_PLATFORM 30 3) inst, None).
Proof. unfold checkHealthCheck. by intros -> ->. Qed.

Lemma checkHealthCheck_missing inst :
  MicroServiceInstance.HealthCheck inst = None →
  checkHealthCheck inst =
  (with_HealthCheck (HealthCheck.mk CHECK_BY_HEARTBEAT 30 3) inst, None).
Proof. unfold checkHealthCheck. by intros ->. Qed.

Lemma checkHealthCheck_heartbeat inst hc :
  MicroServiceInstance.HealthCheck inst = Some hc →
  HealthCheck.Mode hc = CHECK_BY_HEARTBEAT →
  checkHealthCheck inst =
  (inst,
   if (leaseTTL hc <=? 0) || (leaseTTL hc >=? MaxInt32)
   then Some (scerr.NewError ErrInvalidParams
                "Invalid 'healthCheck' settings in request body.")
   else None).
Proof. unfold checkHealthCheck. intros -> ->. by destruct (_ || _). Qed.

Lemma fillIdentity_HealthCheck o inst :
  MicroServiceInstance.HealthCheck (fillIdentity o inst) =
  MicroServiceInstance.HealthCheck inst.
Proof. done. Qed.

Lemma out_of_range_spec d :
  (d <=? 0) || (d >=? MaxInt32) = true ↔ d ≤ 0 ∨ 2 ^ 31 - 1 ≤ d.
Proof.
  unfold MaxInt32. rewrite orb_true_iff, Z.leb_le, Z.geb_leb, Z.leb_le. done.
Qed.

(** C3, as amended.  For a valid request that matches no live instance:
    in HEARTBEAT mode, when the product [interval * (retry_times + 1)]
    does not overflow 32 bits, the health-check block rejects it exactly
    when the product is [≤ 0] or [≥ 2^31 - 1]; a rejection makes
    [Register] answer InvalidParams with no transport error and without
    touching the world; in any other mode, and without a health-check
    block, the block rejects nothing. *)
Theorem Register_health_check_product E o ctx in_ w :
  Validate E (RegisterRequest in_) = None →
  InstanceExist E (store w) ctx (RegisterInstanceRequest.Instance in_) = ("", None) →
  let inst := RegisterInstanceRequest.Instance in_ in
  let rejection :=
    scerr.NewError ErrInvalidParams "Invalid 'healthCheck' settings in request body." in
  (∀ hc,
     MicroServiceInstance.HealthCheck inst = Some hc →
     HealthCheck.Mode hc = CHECK_BY_HEARTBEAT →
     is_int32 (HealthCheck.Times hc + 1) →
     is_int32 (HealthCheck.Interval hc * (HealthCheck.Times hc + 1)) →
     let product := HealthCheck.Interval hc * (HealthCheck.Times hc + 1) in
     (product ≤ 0 ∨ 2 ^ 31 - 1 ≤ product ↔
      (checkHealthCheck (fillIdentity o inst)).2 = Some rejection) ∧
     (0 < product < 2 ^ 31 - 1 ↔ (checkHealthCheck (fillIdentity o inst)).2 = None)) ∧
  ((checkHealthCheck (fillIdentity o inst)).2 = Some rejection →
   Register E o ctx in_ w =
   Done (RegisterInstanceResponse.mk
           (CreateResponse ErrInvalidParams
              "Invalid 'healthCheck' settings in request body.") "", None) w) ∧
  (∀ hc,
     MicroServiceInstance.HealthCheck inst = Some hc →
     HealthCheck.Mode hc ≠ CHECK_BY_HEARTBEAT →
     (checkHealthCheck (fillIdentity o inst)).2 = None) ∧
  (MicroServiceInstance.HealthCheck inst = None →
   (checkHealthCheck (fillIdentity o inst)).2 = None).
Proof.
  intros Hvalid Hfresh inst rejection. split; [|split; [|split]].
  - intros hc Hhc Hmode Ht Hp product.
    rewrite (checkHealthCheck_heartbeat _ hc) by done. simpl.
    pose proof (out_of_range_spec (leaseTTL hc)) as Hd.
    rewrite leaseTTL_exact in * by done. fold product in Hd |- *.
    destruct (_ || _).
    + assert (product ≤ 0 ∨ 2 ^ 31 - 1 ≤ product) as Hout by (by apply Hd).
      split; split; intros; try done; lia.
    + assert (¬ (product ≤ 0 ∨ 2 ^ 31 - 1 ≤ product)) as Hin
        by (intros Hout; by apply Hd in Hout).
      split; split; intros; try done; lia.
  - intros Hrej. rewrite Register_fresh by done. subst inst.
    destruct (preProcessRegisterInstance_run E o ctx (RegisterInstanceRequest.Instance in_) w)
      as (i & e & -> & Hrun).
    destruct (checkHealthCheck _) as [checked [e'|]]; simplify_eq/=.
    by destruct Hrun as [-> ->].
  - intros hc Hhc Hmode. unfold checkHealthCheck.
    rewrite fillIdentity_HealthCheck, Hhc. by destruct (HealthCheck.Mode hc).
  - intros Hhc. by rewrite checkHealthCheck_missing.
Qed.

(** Scenario "Invalid TTL": HEARTBEAT with interval 0 and no retry. *)
Lemma Register_health_check_product_witness :
  let in_ := Sample.request (Some (HealthCheck.mk CHECK_BY_HEARTBEAT 0 0)) in
  Register Sample.externals Sample.oracle Sample.tenant in_ Sample.with_service =
  Done (RegisterInstanceResponse.mk
          (CreateResponse ErrInvalidParams
             "Invalid 'healthCheck' settings in request body.") "", None)
    Sample.with_service.
Proof.
  intros in_.
  pose proof (Register_health_check_product Sample.externals Sample.oracle Sample.tenant
                in_ Sample.with_service) as H.
  destruct H as (Hiff & Hreg & _); [reflexivity | vm_compute; reflexivity |].
  apply Hreg.
  destruct (Hiff (HealthCheck.mk CHECK_BY_HEARTBEAT 0 0)) as [[Hrej _] _];
    [reflexivity | reflexivity | vm_compute; split; discriminate
    | vm_compute; split; discriminate |].
  apply Hrej. left. vm_compute. discriminate.
Defined.

(** C3, the claim as stated: a PLATFORM request whose product is 0 is
    outside [(0, 2^31)], yet [Register] admits it. *)
Lemma Register_health_check_product_counterexample :
  let hc := HealthCheck.mk CHECK_BY_PLATFORM 0 0 in
  let product := HealthCheck.Interval hc * (HealthCheck.Times hc + 1) in
  ¬ (0 < product < 2 ^ 31) ∧
  ∃ w',
    Register Sample.externals Sample.oracle Sample.tenant (Sample.request (Some hc))
      Sample.with_service =
    Done (RegisterInstanceResponse.mk
            (CreateResponse Response_SUCCESS "Register service instance successfully.")
            "I1", None) w'.
Proof.
  split; [vm_compute; intros [? _]; discriminate|].
  eexists. vm_compute. reflexivity.
Qed.

(** The upper bound of the check is [math.MaxInt32] itself: interval
    [2^31 - 1] with no retry is rejected although it lies inside
    [(0, 2^31)]. *)
Example Register_rejects_MaxInt32 :
  (checkHealthCheck
     (RegisterInstanceRequest.Instance
        (Sample.request (Some (HealthCheck.mk CHECK_BY_HEARTBEAT 2147483647 0))))).2 =
  Some (scerr.NewError ErrInvalidParams "Invalid 'healthCheck' settings in request body.").
Proof. reflexivity. Qed.

(** A product that overflows 32 bits wraps around before it is checked:
    65537 * 65536 is seen as 65536. *)
Example leaseTTL_wraps :
  leaseTTL (HealthCheck.mk CHECK_BY_HEARTBEAT 65537 65535) = 65536.
Proof. reflexivity. Qed.

(** ** The commit phase *)

Lemma new_calls_app w w' cs : calls w' = calls w ++ cs → new_calls w w' = cs.
Proof. unfold new_calls. intros ->. by rewrite drop_app_length. Qed.

Lemma log_calls_nil w : log_calls [] w = w.
Proof. destruct w. unfold log_calls. simpl. by rewrite app_nil_r. Qed.

Lemma ReportUsedQuota_run reporter w :
  ∃ answer, ReportUsedQuota reporter w = Done answer (log_calls (report_calls reporter) w).
Proof.
  unfold report_calls. destruct reporter as [[err [answer|]]|]; simpl;
    rewrite ?log_calls_nil; eauto.
Qed.

Lemma Close_run reporter w :
  Close reporter w = Done () (log_calls (close_calls reporter) w).
Proof.
  unfold close_calls. destruct reporter as [[err [answer|]]|]; simpl;
    by rewrite ?log_calls_nil.
Qed.

(** What [registerCommit] does, outcome by outcome. *)
Lemma registerCommit_run E o domainProject instance ttl reporter w :
  let serviceKey :=
    GenerateServiceKey (RootKey E) domainProject (MicroServiceInstance.ServiceId instance) in
  ∃ r w',
    registerCommit E o domainProject instance ttl reporter w = Done r w' ∧
    match json_Marshal E instance with
    | inr err =>
        w' = w ∧
        r = (RegisterInstanceResponse.mk (CreateResponse ErrInternal (Error_string err)) "",
             Some err)
    | inl data =>
        match LeaseGrantAnswer o with
        | inr err =>
            w' = log_calls [CallLeaseGrant ttl] w ∧
            r = (RegisterInstanceResponse.mk
                   (CreateResponse ErrUnavailableBackend (Error_string err)) "", Some err)
        | inl leaseID =>
            let txn := commit_call (RootKey E) domainProject instance data leaseID in
            leases w' = <[leaseID := ttl]> (leases w) ∧
            match TxnError o with
            | Some err =>
                store w' = store w ∧
                calls w' = calls w ++ [CallLeaseGrant ttl; txn] ∧
                r = (RegisterInstanceResponse.mk
                       (CreateResponse ErrUnavailableBackend (Error_string err)) "", Some err)
            | None =>
                if decide (version_of (store w) serviceKey = 0)
                then
                  store w' = store w ∧
                  calls w' = calls w ++ [CallLeaseGrant ttl; txn] ∧
                  r = (RegisterInstanceResponse.mk
                         (CreateResponse ErrServiceNotExists "Service does not exist.") "",
                       None)
                else
                  store w' =
                    apply_ops (store w)
                      (commit_puts (RootKey E) domainProject instance data leaseID) ∧
                  calls w' = calls w ++ [CallLeaseGrant ttl; txn] ++ report_calls reporter ∧
                  r = (RegisterInstanceResponse.mk
                         (CreateResponse Response_SUCCESS
                            "Register service instance successfully.")
                         (MicroServiceInstance.InstanceId instance), None)
            end
        end
    end.
Proof.
  intros serviceKey. unfold registerCommit, reply.
  fold (commit_puts (RootKey E) domainProject instance).
  fold (commit_compare (RootKey E) domainProject instance).
  destruct (json_Marshal E instance) as [data|err]; [|by eauto].
  unfold mbind, M_bind, LeaseGrant.
  destruct (LeaseGrantAnswer o) as [leaseID|err]; [|by eauto].
  unfold TxnWithCmp. destruct (TxnError o) as [err|].
  { do 2 eexists. split; [done|]. unfold commit_call. simpl.
    by rewrite <- app_assoc. }
  assert (forallb (eval_cmp (store w)) (commit_compare (RootKey E) domainProject instance) =
          bool_decide (version_of (store w) serviceKey ≠ 0)) as Hcmp
    by apply andb_true_r.
  cbn [store set_leases add_call]. rewrite Hcmp.
  destruct (decide (version_of (store w) serviceKey = 0)) as [Hv|Hv].
  - rewrite bool_decide_eq_false_2 by (by intros ?).
    do 2 eexists. split; [done|]. unfold commit_call. simpl.
    by rewrite <- app_assoc.
  - rewrite bool_decide_eq_true_2 by done. cbn [PluginResponse.Succeeded negb].
    match goal with
    | |- context [ReportUsedQuota reporter ?w1] =>
        destruct (ReportUsedQuota_run reporter w1) as [answer ->]
    end.
    do 2 eexists. split; [done|]. unfold commit_call. simpl.
    by rewrite <- !app_assoc.
Qed.

(** What [registerAdmit] adds around the commit: the quota reservation
    and its deferred release. *)
Lemma registerAdmit_run E o ctx instance hc w :
  MicroServiceInstance.HealthCheck instance = Some hc →
  let domainProject := ParseDomainProject ctx in
  let reporter := QuotaAnswer o in
  let w1 :=
    log_calls
      [CallApply4Quotas
         (ApplyQuotaResource.mk domainProject (MicroServiceInstance.ServiceId instance) 1)]
      w in
  registerAdmit E o ctx instance w =
  if IsSCInstance ctx
  then registerCommit E o domainProject instance (leaseTTL hc) None w
  else
    match ApplyQuotaResult.Err reporter with
    | Some err =>
        Done (RegisterInstanceResponse.mk (CreateResponseWithSCErr err) "",
              if scerr.InternalError err then Some (SCError err) else None)
          (log_calls (close_calls (Some reporter)) w1)
    | None =>
        match registerCommit E o domainProject instance (leaseTTL hc) (Some reporter) w1 with
        | Done r w2 => Done r (log_calls (close_calls (Some reporter)) w2)
        | Panic msg w2 => Panic msg (log_calls (close_calls (Some reporter)) w2)
        end
    end.
Proof.
  intros Hhc domainProject reporter w1. unfold registerAdmit. rewrite Hhc.
  destruct (IsSCInstance ctx); [done|]. cbn [negb].
  unfold Apply4Quotas, mbind, M_bind, call, mret, M_ret, defer.
  fold domainProject reporter. change (add_call ?c w) with w1.
  destruct (ApplyQuotaResult.Err reporter) as [err|].
  - unfold reply, mret, M_ret. by rewrite Close_run.
  - destruct (registerCommit _ _ _ _ _ _ _) as [r w2|msg w2]; by rewrite Close_run.
Qed.

Lemma elem_of_report_calls c reporter : c ∈ report_calls reporter → c = CallReportUsedQuota.
Proof.
  unfold report_calls. destruct (reporter ≫= _); [|by intros ?%elem_of_nil].
  by intros ?%list_elem_of_singleton.
Qed.

Lemma elem_of_close_calls c reporter : c ∈ close_calls reporter → c = CallQuotaClose.
Proof.
  unfold close_calls. destruct (reporter ≫= _); [|by intros ?%elem_of_nil].
  by intros ?%list_elem_of_singleton.
Qed.

(** The calls of the commit phase: one lease grant with the TTL given,
    then at most one transaction, the one of [commit_call] under the
    lease just granted. *)
Lemma registerCommit_calls E o domainProject instance ttl reporter w :
  ∃ r w' cs,
    registerCommit E o domainProject instance ttl reporter w = Done r w' ∧
    calls w' = calls w ++ cs ∧
    (∀ c, c ∈ cs →
       c = CallLeaseGrant ttl ∨ c = CallReportUsedQuota ∨
       ∃ data leaseID,
         LeaseGrantAnswer o = inl leaseID ∧
         (∃ post, cs = [CallLeaseGrant ttl; c] ++ post) ∧
         c = commit_call (RootKey E) domainProject instance data leaseID) ∧
    (store w' = store w ∨
     ∃ data leaseID,
       version_of (store w)
         (GenerateServiceKey (RootKey E) domainProject
            (MicroServiceInstance.ServiceId instance)) ≠ 0 ∧
       store w' =
         apply_ops (store w) (commit_puts (RootKey E) domainProject instance data leaseID)).
Proof.
  destruct (registerCommit_run E o domainProject instance ttl reporter w)
    as (r & w' & Hrun & H).
  exists r, w'.
  destruct (json_Marshal E instance) as [data|err].
  2: { destruct H as [-> ->]. exists []. rewrite app_nil_r.
       split_and!; [done.. | by intros c ?%elem_of_nil | by left]. }
  destruct (LeaseGrantAnswer o) as [leaseID|err] eqn:Hgrant.
  2: { destruct H as [-> ->]. exists [CallLeaseGrant ttl].
       split_and!; [done.. | | by left]. intros c ?%list_elem_of_singleton. by left. }
  destruct H as [Hleases H].
  assert (∀ post c,
            c ∈ [CallLeaseGrant ttl;
                 commit_call (RootKey E) domainProject instance data leaseID] ++ post →
            (∀ c, c ∈ post → c = CallReportUsedQuota) →
            c = CallLeaseGrant ttl ∨ c = CallReportUsedQuota ∨
            ∃ data0 leaseID0,
              inl leaseID = @inl Z error leaseID0 ∧
              (∃ post0,
                 [CallLeaseGrant ttl;
                  commit_call (RootKey E) domainProject instance data leaseID] ++ post =
                 [CallLeaseGrant ttl; c] ++ post0) ∧
              c = commit_call (RootKey E) domainProject instance data0 leaseID0) as Hin.
  { intros post c Hc Hpost. simpl in Hc.
    apply elem_of_cons in Hc as [->|Hc]; [by left|].
    apply elem_of_cons in Hc as [->|Hc]; [|right; left; by apply Hpost].
    right. right. exists data, leaseID. eauto. }
  destruct (TxnError o) as [err|].
  { destruct H as (? & Hcalls & ->). eexists. split_and!; [done.. | | by left].
    intros c Hc. apply (Hin [] c Hc). by intros ? ?%elem_of_nil. }
  destruct (decide _).
  - destruct H as (? & Hcalls & ->). eexists. split_and!; [done.. | | by left].
    intros c Hc. apply (Hin [] c Hc). by intros ? ?%elem_of_nil.
  - destruct H as (? & Hcalls & ->). eexists. split_and!; [done.. | | by eauto].
    intros c Hc. apply (Hin _ c Hc). intros ?. apply elem_of_report_calls.
Qed.

Lemma registerAdmit_effects E o ctx instance hc w :
  MicroServiceInstance.HealthCheck instance = Some hc →
  ∃ r w' cs,
    registerAdmit E o ctx instance w = Done r w' ∧
    calls w' = calls w ++ cs ∧
    (∀ c, c ∈ cs → Register_call_shape E o ctx cs c) ∧
    (∀ ttl, CallLeaseGrant ttl ∈ cs → ttl = leaseTTL hc) ∧
    Register_store_shape E ctx (store w) (store w').
Proof.
  intros Hhc. rewrite (registerAdmit_run E o ctx instance hc) by done.
  destruct (IsSCInstance ctx).
  - destruct (registerCommit_calls E o (ParseDomainProject ctx) instance (leaseTTL hc) None w)
      as (r & w' & cs & -> & Hcalls & Hshape & Hstore).
    exists r, w', cs. split_and!; [done..| | |].
    + intros c Hc. destruct (Hshape c Hc) as [->|[->|(data & leaseID & ? & [post ->] & ->)]].
      * do 3 right. left. eauto.
      * do 2 right. by left.
      * do 4 right. exists instance, data, leaseID, (leaseTTL hc), [], post. done.
    + intros ttl Hc.
      destruct (Hshape _ Hc) as [?|[?|(? & ? & ? & ? & ?)]]; by simplify_eq.
    + destruct Hstore as [?|(data & leaseID & ? & ?)]; [by left|].
      right. by exists instance, data, leaseID.
  - set (apply := CallApply4Quotas _).
    destruct (ApplyQuotaResult.Err (QuotaAnswer o)) as [err|].
    { do 3 eexists. split; [done|]. simpl. rewrite <- app_assoc.
      split_and!; [done| | |by left].
      - intros c [->|Hc%elem_of_close_calls]%elem_of_cons; [left; by eexists|].
        right. by left.
      - intros ttl [?|?%elem_of_close_calls]%elem_of_cons; done. }
    destruct (registerCommit_calls E o (ParseDomainProject ctx) instance (leaseTTL hc)
                (Some (QuotaAnswer o)) (log_calls [apply] w))
      as (r & w' & cs & -> & Hcalls & Hshape & Hstore).
    exists r, (log_calls (close_calls (Some (QuotaAnswer o))) w'),
      ([apply] ++ cs ++ close_calls (Some (QuotaAnswer o))).
    split_and!; [done| | | |].
    + simpl. rewrite Hcalls. simpl. by rewrite <- !app_assoc.
    + intros c [->|[Hc|Hc%elem_of_close_calls]%elem_of_app]%elem_of_cons.
      * left. by eexists.
      * destruct (Hshape c Hc) as [->|[->|(data & leaseID & ? & [post ->] & ->)]].
        -- do 3 right. left. eauto.
        -- do 2 right. by left.
        -- do 4 right.
           exists instance, data, leaseID, (leaseTTL hc), [apply],
             (post ++ close_calls (Some (QuotaAnswer o))).
           split_and!; [done| |done]. f_equal.
      * right. by left.
    + intros ttl [?|[Hc|?%elem_of_close_calls]%elem_of_app]%elem_of_cons; [done| |done].
      destruct (Hshape _ Hc) as [?|[?|(? & ? & ? & ? & ?)]]; by simplify_eq.
    + simpl. destruct Hstore as [?|(data & leaseID & ? & ?)]; [by left|].
      right. by exists instance, data, leaseID.
Qed.

Lemma Register_effects E o ctx in_ w :
  ∃ r w' cs,
    Register E o ctx in_ w = Done r w' ∧
    calls w' = calls w ++ cs ∧
    (∀ c, c ∈ cs → Register_call_shape E o ctx cs c) ∧
    Register_store_shape E ctx (store w) (store w').
Proof.
  assert (∀ r, ∃ (r' : RegisterInstanceResponse.t * option error) w' cs,
            Done r w = Done r' w' ∧ calls w' = calls w ++ cs ∧
            (∀ c, c ∈ cs → Register_call_shape E o ctx cs c) ∧
            Register_store_shape E ctx (store w) (store w')) as Hidle.
  { intros r. exists r, w, []. rewrite app_nil_r.
    split_and!; [done.. | by intros c ?%elem_of_nil | by left]. }
  destruct (Validate E (RegisterRequest in_)) as [err|] eqn:Hvalid.
  { unfold Register, reply. rewrite Hvalid. apply Hidle. }
  destruct (InstanceExist E (store w) ctx (RegisterInstanceRequest.Instance in_))
    as [oldInstanceId [checkErr|]] eqn:Hexist.
  { register_prologue Hvalid Hexist. apply Hidle. }
  destruct (decide (oldInstanceId ≠ "")) as [Hold|Hold].
  { register_prologue Hvalid Hexist. rewrite decide_True by done. apply Hidle. }
  apply dec_stable in Hold as ->.
  rewrite Register_fresh by done.
  destruct (preProcessRegisterInstance_run E o ctx (RegisterInstanceRequest.Instance in_) w)
    as (instance & err & Hpre & _).
  rewrite Hpre. destruct err as [err|]; [apply Hidle|].
  destruct (preProcessRegisterInstance_Some _ _ _ _ _ _ _ Hpre) as [hc Hhc].
  destruct (registerAdmit_effects E o ctx instance hc w Hhc)
    as (r & w' & cs & ? & ? & ? & _ & ?).
  by exists r, w', cs.
Qed.

(** ** Keys *)

Lemma append_assoc (a b c : string) : (a +:+ b) +:+ c = a +:+ (b +:+ c).
Proof.
  induction a as [|x a IH]; [done|].
  change (String x ((a +:+ b) +:+ c) = String x (a +:+ (b +:+ c))). by rewrite IH.
Qed.

Lemma instance_key_not_lease_key root s s' :
  instance_prefix root +:+ s ≠ lease_prefix root +:+ s'.
Proof.
  unfold instance_prefix, lease_prefix. rewrite !append_assoc.
  intros H%(inj (String.append root)). by inversion H.
Qed.

Lemma service_key_not_instance_key root s s' :
  service_prefix root +:+ s ≠ instance_prefix root +:+ s'.
Proof.
  unfold instance_prefix, service_prefix. rewrite !append_assoc.
  intros H%(inj (String.append root)). by inversion H.
Qed.

Lemma service_key_not_lease_key root s s' :
  service_prefix root +:+ s ≠ lease_prefix root +:+ s'.
Proof.
  unfold lease_prefix, service_prefix. rewrite !append_assoc.
  intros H%(inj (String.append root)). by inversion H.
Qed.

(** ** The pairing invariant *)

Lemma paired_empty root : paired root ∅.
Proof. intros s. by rewrite !lookup_empty. Qed.

Lemma paired_commit root domainProject instance data leaseID (st : Store) :
  paired root st →
  paired root (apply_ops st (commit_puts root domainProject instance data leaseID)).
Proof.
  intros Hst s. unfold apply_ops, commit_puts, GenerateInstanceKey, GenerateInstanceLeaseKey.
  cbn [foldl apply_op].
  set (sfx := domainProject +:+ "/" +:+ MicroServiceInstance.ServiceId instance +:+ "/" +:+
              MicroServiceInstance.InstanceId instance).
  rewrite (lookup_insert_ne _ (lease_prefix root +:+ sfx) (instance_prefix root +:+ s))
    by (intros H; by apply (instance_key_not_lease_key root s sfx)).
  destruct (decide (s = sfx)) as [->|Hne].
  - by rewrite !lookup_insert_eq.
  - rewrite (lookup_insert_ne _ (instance_prefix root +:+ sfx) (instance_prefix root +:+ s))
      by (by intros H%(inj (String.append _))).
    rewrite (lookup_insert_ne _ (lease_prefix root +:+ sfx) (lease_prefix root +:+ s))
      by (by intros H%(inj (String.append _))).
    rewrite (lookup_insert_ne _ (instance_prefix root +:+ sfx) (lease_prefix root +:+ s))
      by apply instance_key_not_lease_key.
    apply Hst.
Qed.

Lemma paired_revoke root leaseID (st : Store) :
  paired root st → paired root (revoke_keys st leaseID).
Proof.
  intros Hst s. unfold revoke_keys. rewrite !map_lookup_filter. specialize (Hst s).
  destruct (st !! (instance_prefix root +:+ s)) as [a|],
           (st !! (lease_prefix root +:+ s)) as [b|]; simplify_eq/=; [|done].
  repeat case_guard; simplify_eq/=; by try congruence.
Qed.

Lemma paired_service_op root domainProject serviceId (st : Store) op :
  op = OpDelete (GenerateServiceKey root domainProject serviceId) ∨
  (∃ value lease, op = OpPut (GenerateServiceKey root domainProject serviceId) value lease) →
  paired root st → paired root (apply_op st op).
Proof.
  intros Hop Hst s. unfold GenerateServiceKey in Hop.
  destruct Hop as [->|(value & lease & ->)]; simpl.
  - rewrite !lookup_delete_ne; [apply Hst|..].
    + apply service_key_not_lease_key.
    + apply service_key_not_instance_key.
  - rewrite !lookup_insert_ne; [apply Hst|..].
    + apply service_key_not_lease_key.
    + apply service_key_not_instance_key.
Qed.

Lemma paired_update root suffix value kv (st : Store) :
  st !! (lease_prefix root +:+ suffix) = Some kv →
  paired root st →
  paired root (apply_op st (OpPut (instance_prefix root +:+ suffix) value (KeyValue.Lease kv))).
Proof.
  intros Hkv Hst s. cbn [apply_op].
  rewrite (lookup_insert_ne _ (instance_prefix root +:+ suffix) (lease_prefix root +:+ s))
    by apply instance_key_not_lease_key.
  destruct (decide (s = suffix)) as [->|Hne].
  - by rewrite lookup_insert_eq, Hkv.
  - rewrite lookup_insert_ne by (by intros H%(inj (String.append _))). apply Hst.
Qed.

Lemma paired_step E w w' :
  step E w w' → paired (RootKey E) (store w) → paired (RootKey E) (store w').
Proof.
  intros Hstep Hw.
  destruct Hstep as [o ctx in_ w r w' Hreg|leaseID w r w' Hrev|suffix value kv w Hkv| |].
  3: { cbn [store set_store]. by apply paired_update. }
  - destruct (Register_effects E o ctx in_ w) as (r' & w'' & cs & Hrun & _ & _ & Hstore).
    rewrite Hreg in Hrun. simplify_eq.
    destruct Hstore as [->|(instance & data & leaseID & _ & ->)]; [done|].
    by apply paired_commit.
  - unfold LeaseRevoke in Hrev. simplify_eq. simpl. by apply paired_revoke.
  - cbn [store set_store]. eapply paired_service_op; [right; eauto|done].
  - cbn [store set_store]. eapply paired_service_op; [left; eauto|done].
Qed.

Lemma paired_reachable E w : reachable E w → paired (RootKey E) (store w).
Proof.
  unfold reachable. revert w.
  apply (rtc_ind_r (λ w, paired (RootKey E) (store w))).
  - apply paired_empty.
  - intros w w' _ Hstep Hw. by eapply paired_step.
Qed.

Lemma commit_puts_lookup root domainProject instance data leaseID (st : Store) :
  let key :=
    GenerateInstanceKey root domainProject (MicroServiceInstance.ServiceId instance)
      (MicroServiceInstance.InstanceId instance) in
  let hbKey :=
    GenerateInstanceLeaseKey root domainProject (MicroServiceInstance.ServiceId instance)
      (MicroServiceInstance.InstanceId instance) in
  let st' := apply_ops st (commit_puts root domainProject instance data leaseID) in
  st' !! key = Some (KeyValue.mk data leaseID (version_of st key + 1)) ∧
  st' !! hbKey = Some (KeyValue.mk (pretty leaseID) leaseID (version_of st hbKey + 1)) ∧
  ∀ k, k ≠ key → k ≠ hbKey → st' !! k = st !! k.
Proof.
  intros key hbKey st'.
  assert (key ≠ hbKey) as Hne by apply instance_key_not_lease_key.
  subst st'. unfold apply_ops, commit_puts. cbn [foldl apply_op]. fold key hbKey.
  split_and!.
  - by rewrite lookup_insert_ne, lookup_insert_eq.
  - rewrite lookup_insert_eq. unfold version_of at 1.
    by rewrite lookup_insert_ne.
  - intros k ? ?. by rewrite !lookup_insert_ne.
Qed.



(** ** Re-registration *)

(** C2.  A valid request whose endpoints match a live instance of the
    service is answered SUCCESS with the id of that instance, and the
    world is left as it was: no quota call, no lease, no write; a second
    call returns the same id. *)
Theorem Register_idempotent_on_endpoint_match E o o' ctx in_ w oldInstanceId :
  Validate E (RegisterRequest in_) = None →
  InstanceExist E (store w) ctx (RegisterInstanceRequest.Instance in_) =
    (oldInstanceId, None) →
  oldInstanceId ≠ "" →
  let reuse :=
    (RegisterInstanceResponse.mk
       (CreateResponse Response_SUCCESS "instance already exists") oldInstanceId,
     @None error) in
  Register E o ctx in_ w = Done reuse w ∧
  new_calls w (world_of (Register E o ctx in_ w)) = [] ∧
  (first ← Register E o ctx in_; second ← Register E o' ctx in_; mret (first, second)) w =
  Done (reuse, reuse) w.
Proof.
  intros Hvalid Hexist Hold reuse.
  assert (∀ o, Register E o ctx in_ w = Done reuse w) as Hrun.
  { intros o0. register_prologue Hvalid Hexist. by rewrite decide_True. }
  split_and!; [done| |].
  - rewrite Hrun. unfold new_calls. simpl. apply drop_all.
  - unfold mbind, M_bind. by rewrite !Hrun.
Qed.

(** Scenario "Idempotent register": the request that created [I1] is
    sent again. *)
Lemma Register_idempotent_on_endpoint_match_witness :
  Register Sample.externals Sample.oracle Sample.tenant
    (Sample.request Sample.heartbeat_30_3) Sample.registered =
  Done (RegisterInstanceResponse.mk
          (CreateResponse Response_SUCCESS "instance already exists") "I1", None)
    Sample.registered.
Proof.
  apply (Register_idempotent_on_endpoint_match Sample.externals Sample.oracle Sample.oracle
           Sample.tenant (Sample.request Sample.heartbeat_30_3) Sample.registered "I1").
  - reflexivity.
  - vm_compute. reflexivity.
  - discriminate.
Defined.

(** ** A failed compare *)




(** ** Default health checks *)

(** C9.  A valid request that matches no live instance and asks for
    PLATFORM mode leaves preprocessing with interval 30 and retry 3,
    whatever it supplied; one without a health-check block leaves it with
    HEARTBEAT, 30 and 3.  The TTL computed from the block is 120, and
    that is the TTL of every lease [Register] asks for. *)
Theorem Register_health_check_defaults E o ctx in_ w mode :
  Validate E (RegisterRequest in_) = None →
  InstanceExist E (store w) ctx (RegisterInstanceRequest.Instance in_) = ("", None) →
  (MicroServiceInstance.HealthCheck (RegisterInstanceRequest.Instance in_) = None ∧
   mode = CHECK_BY_HEARTBEAT) ∨
  (∃ hc,
     MicroServiceInstance.HealthCheck (RegisterInstanceRequest.Instance in_) = Some hc ∧
     HealthCheck.Mode hc = CHECK_BY_PLATFORM ∧ mode = CHECK_BY_PLATFORM) →
  ∃ instance err,
    preProcessRegisterInstance E o ctx (RegisterInstanceRequest.Instance in_) w =
      Done (instance, err) w ∧
    MicroServiceInstance.HealthCheck instance = Some (HealthCheck.mk mode 30 3) ∧
    leaseTTL (HealthCheck.mk mode 30 3) = 120 ∧
    Register E o ctx in_ w =
      match err with
      | Some err =>
          Done (RegisterInstanceResponse.mk (CreateResponseWithSCErr err) "", None) w
      | None => registerAdmit E o ctx instance w
      end ∧
    ∀ ttl, CallLeaseGrant ttl ∈ new_calls w (world_of (Register E o ctx in_ w)) → ttl = 120.
Proof.
  intros Hvalid Hfresh Hmode. rewrite Register_fresh by done.
  destruct (preProcessRegisterInstance_run E o ctx (RegisterInstanceRequest.Instance in_) w)
    as (instance & err & Hpre & Hrun).
  assert (checkHealthCheck (fillIdentity o (RegisterInstanceRequest.Instance in_)) =
          (with_HealthCheck (HealthCheck.mk mode 30 3)
             (fillIdentity o (RegisterInstanceRequest.Instance in_)), None)) as Hcheck.
  { destruct Hmode as [[Hhc ->]|(hc & Hhc & Hm & ->)].
    - by apply checkHealthCheck_missing.
    - by apply (checkHealthCheck_platform _ hc). }
  rewrite Hcheck in Hrun.
  assert (MicroServiceInstance.HealthCheck instance = Some (HealthCheck.mk mode 30 3))
    as Hhc.
  { destruct (GetService _ _ _ _ _) as [[service|] [e|]]; by destruct Hrun as [-> _]. }
  exists instance, err. rewrite Hpre. split_and!; [done..| |].
  { by destruct err. }
  destruct err as [err|].
  { unfold new_calls. cbn [world_of]. rewrite drop_all. by intros ttl ?%elem_of_nil. }
  destruct (registerAdmit_effects E o ctx instance _ w Hhc)
    as (r & w' & cs & -> & Hcalls & _ & Httl & _).
  cbn [world_of]. rewrite (new_calls_app _ _ _ Hcalls). apply Httl.
Qed.

(** A PLATFORM request that supplies interval 5 and retry 1 is granted a
    lease of 120 seconds. *)
Lemma Register_health_check_defaults_witness :
  let in_ := Sample.request (Some (HealthCheck.mk CHECK_BY_PLATFORM 5 1)) in
  let w' := world_of (Register Sample.externals Sample.oracle Sample.tenant in_
                        Sample.with_service) in
  CallLeaseGrant 120 ∈ new_calls Sample.with_service w' ∧
  ∀ ttl, CallLeaseGrant ttl ∈ new_calls Sample.with_service w' → ttl = 120.
Proof.
  intros in_ w'. split.
  - vm_compute. apply list_elem_of_further, list_elem_of_here.
  - destruct (Register_health_check_defaults Sample.externals Sample.oracle Sample.tenant
                in_ Sample.with_service CHECK_BY_PLATFORM)
      as (instance & err & _ & _ & _ & _ & Httl).
    + reflexivity.
    + vm_compute. reflexivity.
    + right. exists (HealthCheck.mk CHECK_BY_PLATFORM 5 1). split_and!; reflexivity.
    + exact Httl.
Defined.

(** ** Self-registration *)

(** C10.  When the caller is the registry's own instance and the commit
    succeeds, [Register] returns (it does not panic) with SUCCESS and the
    instance id; it has made no quota call at all, and the usage report
    on the reservation it does not hold returns at once. *)
Theorem Register_self_registration E o ctx in_ w instance data leaseID :
  IsSCInstance ctx = true →
  Validate E (RegisterRequest in_) = None →
  InstanceExist E (store w) ctx (RegisterInstanceRequest.Instance in_) = ("", None) →
  preProcessRegisterInstance E o ctx (RegisterInstanceRequest.Instance in_) w =
    Done (instance, None) w →
  json_Marshal E instance = inl data →
  LeaseGrantAnswer o = inl leaseID →
  TxnError o = None →
  version_of (store w)
    (GenerateServiceKey (RootKey E) (ParseDomainProject ctx)
       (MicroServiceInstance.ServiceId instance)) ≠ 0 →
  ∃ w' hc,
    Register E o ctx in_ w =
    Done (RegisterInstanceResponse.mk
            (CreateResponse Response_SUCCESS "Register service instance successfully.")
            (MicroServiceInstance.InstanceId instance), None) w' ∧
    MicroServiceInstance.HealthCheck instance = Some hc ∧
    new_calls w w' =
      [CallLeaseGrant (leaseTTL hc);
       commit_call (RootKey E) (ParseDomainProject ctx) instance data leaseID] ∧
    ReportUsedQuota None w' = Done None w'.
Proof.
  intros Hsc Hvalid Hfresh Hpre Hdata Hgrant Htxn Hver.
  rewrite Register_fresh, Hpre by done.
  destruct (preProcessRegisterInstance_Some _ _ _ _ _ _ _ Hpre) as [hc Hhc].
  rewrite (registerAdmit_run E o ctx instance hc), Hsc by done.
  destruct (registerCommit_run E o (ParseDomainProject ctx) instance (leaseTTL hc) None w)
    as (r & w' & -> & H).
  rewrite Hdata, Hgrant, Htxn in H. cbn beta iota zeta in H.
  rewrite decide_False in H by done. destruct H as (_ & _ & Hcalls & ->).
  exists w', hc. split_and!; [done..| |done].
  apply new_calls_app. by rewrite Hcalls, app_nil_r.
Qed.

(** The registry registers its own instance under the sample service. *)
Lemma Register_self_registration_witness :
  ∃ w',
    Register Sample.externals Sample.oracle Sample.self
      (Sample.request Sample.heartbeat_30_3) Sample.with_service =
    Done (RegisterInstanceResponse.mk
            (CreateResponse Response_SUCCESS "Register service instance successfully.")
            "I1", None) w' ∧
    new_calls Sample.with_service w' =
      [CallLeaseGrant 120;
       commit_call Sample.root "default/default"
         (with_Version "1.0.0"
            (fillIdentity Sample.oracle
               (RegisterInstanceRequest.Instance (Sample.request Sample.heartbeat_30_3))))
         "I1|h|http://h:9" 77].
Proof.
  destruct (Register_self_registration Sample.externals Sample.oracle Sample.self
              (Sample.request Sample.heartbeat_30_3) Sample.with_service
              (with_Version "1.0.0"
                 (fillIdentity Sample.oracle
                    (RegisterInstanceRequest.Instance (Sample.request Sample.heartbeat_30_3))))
              "I1|h|http://h:9" 77)
    as (w' & hc & Hrun & Hhc & Hcalls & _).
  - reflexivity.
  - reflexivity.
  - vm_compute. reflexivity.
  - vm_compute. reflexivity.
  - vm_compute. reflexivity.
  - reflexivity.
  - reflexivity.
  - vm_compute. discriminate.
  - exists w'. split; [exact Hrun|].
    injection Hhc as <-. exact Hcalls.
Defined.

(** ** Batch heartbeats *)

Section HeartbeatSet_loops.
Variable HeartbeatUtil : string → string → string → option error.
Variable schedule : list nat.

Lemma deliver_aux_Permutation {A} n picks (pending : list A) :
  length pending = n → deliver_aux n picks pending ≡ₚ pending.
Proof.
  revert picks pending. induction n as [|n IH]; intros picks pending Hlen.
  - by apply nil_length_inv in Hlen as ->.
  - cbn [deliver_aux].
    assert (hd 0 picks `mod` length pending < length pending)%nat as Hlt
      by (apply Nat.mod_upper_bound; lia).
    destruct (lookup_lt_is_Some_2 _ _ Hlt) as [x Hx]. rewrite Hx.
    etrans; [|symmetry; apply (delete_Permutation pending _ x Hx)].
    constructor. apply IH. rewrite length_delete by eauto. lia.
Qed.

Lemma deliver_Permutation {A} picks (pending : list A) : deliver picks pending ≡ₚ pending.
Proof. by apply deliver_aux_Permutation. Qed.

Lemma count_receive a heartbeat : count (receive a heartbeat) = count a + 1.
Proof. unfold receive. by destruct (decide _). Qed.

(** The reading loop returns once the tasks that were scheduled have
    all reported. *)
Lemma drain_exact n arrivals a :
  count a + Z.of_nat (length arrivals) = n →
  arrivals ≠ [] →
  drain n arrivals false a = Some (foldl receive a arrivals).
Proof.
  revert a. induction arrivals as [|heartbeat arrivals IH]; intros a Hn Hne; [done|].
  cbn [drain foldl orb]. destruct arrivals as [|next arrivals].
  - simpl in *. rewrite bool_decide_eq_true_2; [done|]. rewrite count_receive. lia.
  - rewrite bool_decide_eq_false_2.
    + apply IH; [|done]. rewrite count_receive. simpl in *. lia.
    + rewrite count_receive. simpl in *. lia.
Qed.

Lemma foldl_receive a arrivals :
  let a' := foldl receive a arrivals in
  instanceHbRstArr a' = instanceHbRstArr a ++ arrivals ∧
  failFlag a' = failFlag a || existsb failed arrivals ∧
  successFlag a' = successFlag a || existsb (λ h, negb (failed h)) arrivals.
Proof.
  revert a. induction arrivals as [|heartbeat arrivals IH]; intros a.
  - simpl. by rewrite app_nil_r, !orb_false_r.
  - cbn [foldl existsb]. destruct (IH (receive a heartbeat)) as (-> & -> & ->).
    unfold receive, failed.
    destruct (decide (InstanceHbRst.ErrMessage heartbeat ≠ "")) as [Hf|Hf].
    + rewrite bool_decide_eq_true_2 by done. cbn.
      rewrite <- app_assoc. split_and!; [done| |done].
      by rewrite orb_true_r.
    + rewrite bool_decide_eq_false_2 by done. cbn.
      rewrite <- app_assoc. split_and!; [done..|].
      by rewrite orb_true_r.
Qed.

Lemma fanout_step_counter f e :
  noMultiCounter f = Z.of_nat (length (scheduled f)) →
  noMultiCounter (fanout_step f e) = Z.of_nat (length (scheduled (fanout_step f e))).
Proof.
  intros Hf. unfold fanout_step. destruct (existFlag f !! _); simpl; [done|].
  rewrite length_app. simpl. lia.
Qed.

Lemma fanout_step_grows f e :
  (length (scheduled f) ≤ length (scheduled (fanout_step f e)))%nat.
Proof.
  unfold fanout_step. destruct (existFlag f !! _); simpl; [done|].
  rewrite length_app. simpl. lia.
Qed.

Lemma foldl_fanout_counter instances f :
  noMultiCounter f = Z.of_nat (length (scheduled f)) →
  noMultiCounter (foldl fanout_step f instances) =
    Z.of_nat (length (scheduled (foldl fanout_step f instances))) ∧
  (length (scheduled f) ≤ length (scheduled (foldl fanout_step f instances)))%nat.
Proof.
  revert f. induction instances as [|e instances IH]; intros f Hf; [done|].
  cbn [foldl]. destruct (IH (fanout_step f e)) as [? ?].
  - by apply fanout_step_counter.
  - split; [done|]. pose proof (fanout_step_grows f e). lia.
Qed.

Lemma fanout_scheduled instances :
  instances ≠ [] →
  noMultiCounter (fanout instances) = Z.of_nat (length (scheduled (fanout instances))) ∧
  scheduled (fanout instances) ≠ [].
Proof.
  intros Hne. unfold fanout. split; [by apply foldl_fanout_counter|].
  destruct instances as [|e instances]; [done|]. cbn [foldl].
  destruct (foldl_fanout_counter instances (fanout_step (mkFanout ∅ 0 [] []) e))
    as [_ Hlen]; [done|].
  intros Hnil. rewrite Hnil in Hlen. unfold fanout_step in Hlen.
  cbn [existFlag] in Hlen. rewrite lookup_empty in Hlen. simpl in Hlen. lia.
Qed.

(** [HeartbeatSet] on a non-empty request: it returns, with the
    results in the order of arrival and the code the flags decide. *)
Lemma HeartbeatSet_run ctx in_ :
  HeartbeatSetRequest.Instances in_ ≠ [] →
  let results :=
    getHeartbeatFunc HeartbeatUtil (ParseDomainProject ctx) <$>
    scheduled (fanout (HeartbeatSetRequest.Instances in_)) in
  let arrivals := deliver schedule results in
  HeartbeatSet HeartbeatUtil schedule ctx in_ =
  Some (if existsb failed arrivals
        then HeartbeatSetResponse.mk
               (CreateResponse ErrInstanceNotExists "Heartbeat set failed.") arrivals
        else HeartbeatSetResponse.mk
               (CreateResponse Response_SUCCESS "Heartbeat set successfully.") arrivals,
        None).
Proof.
  intros Hne results arrivals. unfold HeartbeatSet.
  rewrite decide_False by done. cbn zeta. fold results. fold arrivals.
  destruct (fanout_scheduled _ Hne) as [Hcount Hsched].
  assert (length arrivals = length (scheduled (fanout (HeartbeatSetRequest.Instances in_))))
    as Hlen.
  { subst arrivals results. by rewrite (deliver_Permutation _ _), length_fmap. }
  assert (arrivals ≠ []) as Harr.
  { intros Hnil. rewrite Hnil in Hlen. simpl in Hlen.
    symmetry in Hlen. by apply nil_length_inv in Hlen. }
  rewrite drain_exact; [|simpl; lia|done]. cbn [mbind option_bind].
  destruct (foldl_receive (mkAggregate 0 false false []) arrivals) as (-> & -> & ->).
  cbn [failFlag successFlag instanceHbRstArr orb app].
  destruct (existsb failed arrivals) eqn:Hfail; [done|]. cbn [negb andb].
  destruct arrivals as [|h arrivals']; [done|].
  cbn [existsb] in *. apply orb_false_iff in Hfail as [-> _]. done.
Qed.
End HeartbeatSet_loops.

Section HeartbeatSet_results.
Variable HeartbeatUtil : string → string → string → option error.
Variable schedule : list nat.

(** The tasks that are scheduled are as many as the distinct composite
    keys of the request. *)
Lemma foldl_fanout_distinct instances f :
  length (scheduled (foldl fanout_step f instances)) =
  (length (scheduled f) +
   size ((list_to_set (composite_key <$> instances) : gset string) ∖ dom (existFlag f)))%nat.
Proof.
  revert f. induction instances as [|e instances IH]; intros f.
  - simpl. replace (∅ ∖ dom (existFlag f) : gset string) with (∅ : gset string)
      by set_solver. rewrite size_empty. lia.
  - cbn [foldl fmap list_fmap list_to_set]. rewrite IH. unfold fanout_step.
    fold (composite_key e).
    destruct (existFlag f !! composite_key e) as [b|] eqn:Hk; cbn [scheduled existFlag].
    + f_equal. f_equal. apply (elem_of_dom_2 (D:=gset string)) in Hk. set_solver.
    + apply (not_elem_of_dom (D:=gset string)) in Hk.
      rewrite length_app, dom_insert_L. cbn [length].
      replace (({[composite_key e]} ∪ list_to_set (composite_key <$> instances))
                 ∖ dom (existFlag f) : gset string)
        with ({[composite_key e]} ∪
              (list_to_set (composite_key <$> instances)
                 ∖ ({[composite_key e]} ∪ dom (existFlag f))) : gset string).
      * rewrite (size_union (C:=gset string) {[composite_key e]}) by set_solver.
        rewrite size_singleton. lia.
      * apply set_eq. intros k. destruct (decide (k = composite_key e)); set_solver.
Qed.

Lemma fanout_distinct instances :
  length (scheduled (fanout instances)) =
  size (list_to_set (composite_key <$> instances) : gset string).
Proof.
  unfold fanout. rewrite foldl_fanout_distinct. cbn [scheduled existFlag length].
  by rewrite dom_empty_L, difference_empty_L.
Qed.

(** On a non-empty request the results returned are as many as the
    distinct strings [service_id + instance_id] of the request. *)
Lemma HeartbeatSet_result_count ctx in_ :
  HeartbeatSetRequest.Instances in_ ≠ [] →
  ∃ resp,
    HeartbeatSet HeartbeatUtil schedule ctx in_ = Some (resp, None) ∧
    length (HeartbeatSetResponse.Instances resp) =
    size (list_to_set (composite_key <$> HeartbeatSetRequest.Instances in_) : gset string).
Proof.
  intros Hne. rewrite HeartbeatSet_run by done.
  eexists. split; [done|].
  rewrite <- fanout_distinct.
  rewrite <- (length_fmap (getHeartbeatFunc HeartbeatUtil (ParseDomainProject ctx))).
  pose proof (Permutation_length
                (deliver_Permutation schedule
                   (getHeartbeatFunc HeartbeatUtil (ParseDomainProject ctx) <$>
                    scheduled (fanout (HeartbeatSetRequest.Instances in_))))) as <-.
  by destruct (existsb _ _).
Qed.

(** C5, on the code.  The two distinct pairs [("a", "bc")] and
    [("ab", "c")] are filed under the same string ["abc"]: the second is
    logged as a duplicate and dropped, its lease is not renewed, and one
    result comes back where the claim promises two. *)
Theorem HeartbeatSet_merges_colliding_pairs ctx :
  let e1 := HeartbeatSetElement.mk "a" "bc" in
  let e2 := HeartbeatSetElement.mk "ab" "c" in
  e1 ≠ e2 ∧
  warnings (fanout [e1; e2]) = ["instance[ab/c] is duplicate in heartbeat set"] ∧
  ∃ resp,
    HeartbeatSet HeartbeatUtil schedule ctx (HeartbeatSetRequest.mk [e1; e2]) =
      Some (resp, None) ∧
    HeartbeatSetResponse.Instances resp =
      [getHeartbeatFunc HeartbeatUtil (ParseDomainProject ctx) e1].
Proof.
  intros e1 e2. split_and!; [done | by vm_compute |].
  rewrite HeartbeatSet_run by done. eexists. split; [done|].
  cbn [HeartbeatSetRequest.Instances].
  assert (scheduled (fanout [e1; e2]) = [e1]) as -> by (by vm_compute).
  cbn [fmap list_fmap].
  pose proof (deliver_Permutation schedule
                [getHeartbeatFunc HeartbeatUtil (ParseDomainProject ctx) e1]) as Hp.
  apply Permutation_singleton_r in Hp. rewrite Hp. by destruct (existsb _ _).
Qed.

(** C6.  On a non-empty request [HeartbeatSet] returns the per-element
    results, in some order; a result with an error message makes the
    code InstanceNotExists whatever the others say, and when no result
    has one (there is at least one result) the code is SUCCESS. *)
Theorem HeartbeatSet_aggregation ctx in_ :
  HeartbeatSetRequest.Instances in_ ≠ [] →
  let results :=
    getHeartbeatFunc HeartbeatUtil (ParseDomainProject ctx) <$>
    scheduled (fanout (HeartbeatSetRequest.Instances in_)) in
  ∃ resp,
    HeartbeatSet HeartbeatUtil schedule ctx in_ = Some (resp, None) ∧
    HeartbeatSetResponse.Instances resp ≡ₚ results ∧
    results ≠ [] ∧
    ((∃ r, r ∈ results ∧ InstanceHbRst.ErrMessage r ≠ "") →
     Response.Code (HeartbeatSetResponse.Response resp) = ErrInstanceNotExists) ∧
    ((∀ r, r ∈ results → InstanceHbRst.ErrMessage r = "") →
     Response.Code (HeartbeatSetResponse.Response resp) = Response_SUCCESS).
Proof.
  intros Hne results. rewrite HeartbeatSet_run by done. fold results.
  pose proof (deliver_Permutation schedule results) as Hperm.
  set (arrivals := deliver schedule results) in *.
  assert (existsb failed arrivals = true ↔
          ∃ r, r ∈ results ∧ InstanceHbRst.ErrMessage r ≠ "") as Hfail.
  { rewrite existsb_exists. split.
    - intros (r & Hr%list_elem_of_In & Hf). exists r. rewrite <- Hperm.
      split; [done|]. by apply bool_decide_eq_true in Hf.
    - intros (r & Hr & Hf). exists r. split.
      + apply list_elem_of_In. by rewrite Hperm.
      + by apply bool_decide_eq_true. }
  eexists. split; [done|]. split_and!.
  - by destruct (existsb _ _).
  - destruct (fanout_scheduled _ Hne) as [_ Hs]. subst results.
    by destruct (scheduled _).
  - intros Hex. apply Hfail in Hex. by rewrite Hex.
  - intros Hall. destruct (existsb failed arrivals) eqn:Hx; [|done].
    destruct (proj1 Hfail eq_refl) as (r & Hr & Hf). by specialize (Hall r Hr).
Qed.
End HeartbeatSet_results.

(** Scenario "Batch heartbeat with duplicates and misses":
    [(s1, I1), (s1, I1), (s1, I_missing)]. *)
Lemma HeartbeatSet_aggregation_witness :
  let in_ :=
    HeartbeatSetRequest.mk
      [Sample.element "s1" "I1"; Sample.element "s1" "I1"; Sample.element "s1" "I_missing"] in
  ∃ resp,
    HeartbeatSet Sample.lease_missing [1%nat; 0%nat] Sample.tenant in_ = Some (resp, None) ∧
    HeartbeatSetResponse.Instances resp ≡ₚ
      [InstanceHbRst.mk "s1" "I1" ""; InstanceHbRst.mk "s1" "I_missing" "leaseId not exist"] ∧
    Response.Code (HeartbeatSetResponse.Response resp) = ErrInstanceNotExists.
Proof.
  intros in_.
  destruct (HeartbeatSet_aggregation Sample.lease_missing [1%nat; 0%nat] Sample.tenant in_)
    as (resp & Hrun & Hperm & _ & Hfail & _).
  - discriminate.
  - exists resp. split; [exact Hrun|]. split; [exact Hperm|].
    apply Hfail. exists (InstanceHbRst.mk "s1" "I_missing" "leaseId not exist").
    split; [|discriminate].
    vm_compute. apply list_elem_of_further, list_elem_of_here.
Defined.

(** ** Discovery *)

Lemma findProvider_request_revision E ctx in_ service :
  ctx_string (findProvider E ctx in_ service).1.1 CTX_REQUEST_REVISION =
  ctx_string ctx CTX_REQUEST_REVISION.
Proof.
  unfold findProvider. destruct (IsShared E _); [done|]. cbn [fst].
  unfold ctx_string, SetTargetDomainProject, SetContext.
  by rewrite !lookup_insert_ne.
Qed.

(** A successful [Find] went through the cache and through [findReply]. *)
Lemma Find_success E o ctx in_ w resp err ctx' w' :
  Find E o ctx in_ w = Done (resp, err, ctx') w' →
  Response.Code (FindInstancesResponse.Response resp) = Response_SUCCESS →
  ∃ service item,
    findConsumer E (store w) ctx in_ = inl service ∧
    let ctx1 := (findProvider E ctx in_ service).1.1 in
    let provider := (findProvider E ctx in_ service).1.2 in
    let rev := ctx_string ctx1 CTX_REQUEST_REVISION in
    FindInstances_Get E (store w) ctx1 service provider (FindInstancesRequest.Tags in_) rev =
      (Some item, None) ∧
    resp =
      FindInstancesResponse.mk
        (CreateResponse Response_SUCCESS "Query service instances successfully.")
        (if decide (rev = VersionRuleCacheItem.Rev item)
         then []
         else VersionRuleCacheItem.Instances item) ∧
    err = None ∧
    ctx' = SetContext ctx1 CTX_RESPONSE_REVISION (VString (VersionRuleCacheItem.Rev item)).
Proof.
  unfold Find, found, findReply, found, findFlag, AddServiceVersionRule.
  unfold mbind, M_bind, mret, M_ret, get_store, call, panic.
  destruct (Validate E (FindRequest in_)) as [e|]; [by intros; simplify_eq/=|].
  destruct (findConsumer E (store w) ctx in_) as [service|[resp0 err0]] eqn:Hconsumer.
  2: { intros; simplify_eq/=. unfold findConsumer in Hconsumer.
       repeat case_match; by simplify_eq/=. }
  destruct (findProvider E ctx in_ service) as [[ctx1 provider] shared] eqn:Hprovider.
  cbn [fst snd].
  destruct (FindInstances_Get E (store w) ctx1 service provider _ _)
    as [[item|] [e|]] eqn:Hget; try (by intros; simplify_eq/=).
  intros Hrun Hcode. exists service, item. rewrite Hprovider. cbn [fst snd].
  split; [done|]. split; [done|].
  destruct (_ && _).
  - destruct (reshapeProviderKey _ _ _ _ _) as [[provider'|] ?]; [|by simplify_eq/=].
    destruct (AddRuleAnswer o); by simplify_eq/=.
  - by simplify_eq/=.
Qed.

(** C7.  On a successful [Find], when the revision of the request equals
    the revision of the cache entry the instance list of the response is
    empty, otherwise it is the list of the entry; either way the entry's
    revision is stored in the context as the response revision. *)
Theorem Find_revision_cursor E o ctx in_ w resp err ctx' w' :
  Find E o ctx in_ w = Done (resp, err, ctx') w' →
  Response.Code (FindInstancesResponse.Response resp) = Response_SUCCESS →
  let rev := ctx_string ctx CTX_REQUEST_REVISION in
  ∃ service ctx1 provider shared item,
    findConsumer E (store w) ctx in_ = inl service ∧
    findProvider E ctx in_ service = (ctx1, provider, shared) ∧
    FindInstances_Get E (store w) ctx1 service provider (FindInstancesRequest.Tags in_) rev =
      (Some item, None) ∧
    (rev = VersionRuleCacheItem.Rev item → FindInstancesResponse.Instances resp = []) ∧
    (rev ≠ VersionRuleCacheItem.Rev item →
     FindInstancesResponse.Instances resp = VersionRuleCacheItem.Instances item) ∧
    ctx_string ctx' CTX_RESPONSE_REVISION = VersionRuleCacheItem.Rev item ∧
    err = None.
Proof.
  intros Hrun Hcode rev.
  destruct (Find_success _ _ _ _ _ _ _ _ _ Hrun Hcode)
    as (service & item & Hconsumer & Hget & -> & -> & ->).
  pose proof (findProvider_request_revision E ctx in_ service) as Hrev.
  destruct (findProvider E ctx in_ service) as [[ctx1 provider] shared] eqn:Hprovider.
  cbn [fst snd] in *. rewrite Hrev in *. fold rev in Hget |- *.
  exists service, ctx1, provider, shared, item. split_and!; try done.
  - intros ?. cbn. by rewrite decide_True.
  - intros ?. cbn. by rewrite decide_False.
  - unfold ctx_string, SetContext. by rewrite lookup_insert_eq.
Qed.

(** Scenario "Find with revision skip", second call: the client sends
    the revision [R7] it holds. *)
Lemma Find_revision_cursor_witness :
  let ctx := SetContext Sample.tenant CTX_REQUEST_REVISION (VString "R7") in
  ∃ resp ctx' w',
    Find Sample.externals Sample.oracle ctx (Sample.find "" "svc") Sample.with_service =
      Done (resp, None, ctx') w' ∧
    FindInstancesResponse.Instances resp = [] ∧
    ctx_string ctx' CTX_RESPONSE_REVISION = "R7".
Proof.
  intros ctx.
  destruct (Find Sample.externals Sample.oracle ctx (Sample.find "" "svc") Sample.with_service)
    as [[[resp err] ctx'] w'|msg w'] eqn:Hrun; [|vm_compute in Hrun; discriminate Hrun].
  destruct (Find_revision_cursor _ _ _ _ _ _ _ _ _ Hrun)
    as (service & ctx1 & provider & shared & item & Hc & Hp & Hget & Heq & _ & Hrev & ->).
  - vm_compute in Hrun. by injection Hrun as <- _ _ _.
  - vm_compute in Hc. injection Hc as <-.
    vm_compute in Hp. injection Hp as <- <- <-.
    vm_compute in Hget. injection Hget as <-.
    exists resp, ctx', w'. split; [reflexivity|]. split; [by apply Heq | exact Hrev].
Defined.

(** C8.  When the requested provider key is a shared service, [Find]
    keeps the tenant read from the context and replaces the environment
    of the key by the registry's own, and a successful call answers from
    the cache entry of that key; when it is not shared, the target tenant
    of the context and the tenant of the key are reset to the caller's
    own domain and project. *)
Theorem Find_shared_provider E ctx in_ service :
  let requested :=
    MicroServiceKey.mk (ParseTargetDomainProject ctx) (MicroService.Environment service)
      (FindInstancesRequest.AppId in_) (FindInstancesRequest.ServiceName in_)
      (FindInstancesRequest.ServiceName in_) (FindInstancesRequest.VersionRule in_) in
  let shared_key := with_Environment (MicroService.Environment (Service E)) requested in
  (IsShared E requested = true →
   findProvider E ctx in_ service = (ctx, shared_key, true) ∧
   MicroServiceKey.Environment shared_key = MicroService.Environment (Service E) ∧
   MicroServiceKey.Tenant shared_key = ParseTargetDomainProject ctx ∧
   ∀ o w resp err ctx' w',
     findConsumer E (store w) ctx in_ = inl service →
     Find E o ctx in_ w = Done (resp, err, ctx') w' →
     Response.Code (FindInstancesResponse.Response resp) = Response_SUCCESS →
     ∃ item,
       FindInstances_Get E (store w) ctx service shared_key (FindInstancesRequest.Tags in_)
         (ctx_string ctx CTX_REQUEST_REVISION) = (Some item, None) ∧
       (FindInstancesResponse.Instances resp = [] ∨
        FindInstancesResponse.Instances resp = VersionRuleCacheItem.Instances item)) ∧
  (IsShared E requested = false →
   ∃ ctx1 provider,
     findProvider E ctx in_ service = (ctx1, provider, false) ∧
     ParseTargetDomainProject ctx1 = ParseDomainProject ctx ∧
     MicroServiceKey.Tenant provider = ParseDomainProject ctx ∧
     MicroServiceKey.Environment provider = MicroService.Environment service).
Proof.
  intros requested shared_key. split.
  - intros Hshared.
    assert (findProvider E ctx in_ service = (ctx, shared_key, true)) as Hprovider.
    { unfold findProvider. fold requested. by rewrite Hshared. }
    split_and!; [done..|].
    intros o w resp err ctx' w' Hconsumer Hrun Hcode.
    destruct (Find_success _ _ _ _ _ _ _ _ _ Hrun Hcode)
      as (service' & item & Hconsumer' & Hget & -> & _ & _).
    rewrite Hconsumer in Hconsumer'. injection Hconsumer' as <-.
    rewrite Hprovider in Hget. cbn [fst snd] in Hget.
    exists item. split; [done|]. cbn. destruct (decide _); eauto.
  - intros Hshared. unfold findProvider. fold requested. rewrite Hshared.
    do 2 eexists. split; [done|].
    assert (ParseTargetDomainProject
              (SetTargetDomainProject ctx (ParseDomain ctx) (ParseProject ctx)) =
            ParseDomainProject ctx) as Htarget.
    { unfold ParseTargetDomainProject, ParseTargetDomain, ParseTargetProject,
        ParseDomainProject, SetTargetDomainProject, SetContext, ctx_string.
      rewrite lookup_insert_ne by done. by rewrite !lookup_insert_eq. }
    by rewrite Htarget.
Qed.

(** Scenario "Shared-service cross-tenant": a consumer of environment
    [dev] finds the shared service and is answered from [production]. *)
Lemma Find_shared_provider_witness :
  ∃ resp ctx' w',
    Find Sample.externals Sample.oracle Sample.tenant (Sample.find "" "SERVICECENTER")
      Sample.with_service = Done (resp, None, ctx') w' ∧
    FindInstancesResponse.Instances resp =
      [Sample.instance "I1" "p1"; Sample.instance "I2" "p1"; Sample.instance "I3" "p1"].
Proof.
  destruct (Find_shared_provider Sample.externals Sample.tenant
              (Sample.find "" "SERVICECENTER") (MicroService.mk "" "dev" "" "" "" ""))
    as [Hshared _].
  destruct Hshared as (_ & _ & _ & Hfind); [reflexivity|].
  destruct (Find Sample.externals Sample.oracle Sample.tenant
              (Sample.find "" "SERVICECENTER") Sample.with_service)
    as [[[resp err] ctx'] w'|msg w'] eqn:Hrun; [|vm_compute in Hrun; discriminate Hrun].
  destruct (Hfind Sample.oracle Sample.with_service resp err ctx' w')
    as (item & Hget & Hinst).
  - reflexivity.
  - exact Hrun.
  - vm_compute in Hrun. by injection Hrun as <- _ _ _.
  - vm_compute in Hget. injection Hget as <-.
    exists resp, ctx', w'.
    vm_compute in Hrun. injection Hrun as <- <- _ _. split; reflexivity.
Defined.

(** A consumer's first [Find] of a provider whose first matched service
    cannot be read: [reshapeProviderKey] returns nil into [provider], and
    the message built for the reply dereferences it. *)
Example Find_nil_provider_panics :
  ∃ w',
    Find Sample.first_contact Sample.oracle Sample.tenant (Sample.find "s1" "svc")
      Sample.with_service = Panic nil_dereference w'.
Proof. eexists. vm_compute. reflexivity. Qed.

(** * Further properties of the handlers *)

(** ** Register, outcome by outcome *)

Lemma internal_code_policy (err : scerr.Error) :
  is_Some (if scerr.InternalError err then Some (SCError err) else None) ↔
  internal_code (scerr.Code err) = true.
Proof.
  destruct err as [c d]. unfold internal_code, scerr.InternalError. cbn.
  destruct c; split; intros H; try done; try (by destruct H); eauto.
Qed.

Lemma preProcessRegisterInstance_error E o ctx inst w instance err w' :
  preProcessRegisterInstance E o ctx inst w = Done (instance, Some err) w' →
  scerr.Code err = ErrInvalidParams ∨ scerr.Code err = ErrServiceNotExists.
Proof.
  destruct (preProcessRegisterInstance_run E o ctx inst w) as (i & e & -> & Hrun).
  intros; simplify_eq.
  destruct (checkHealthCheck (fillIdentity o inst)) as [checked [e|]] eqn:Hc.
  - destruct Hrun as [_ [= <-]]. left. unfold checkHealthCheck in Hc.
    repeat case_match; by simplify_eq.
  - right. destruct (GetService _ _ _ _ _) as [[?|] [?|]]; destruct Hrun as [_ Herr];
      by simplify_eq.
Qed.

(** Preprocessing keeps the service id and settles the instance id. *)
Lemma preProcessRegisterInstance_identity E o ctx inst w instance err w' :
  preProcessRegisterInstance E o ctx inst w = Done (instance, err) w' →
  MicroServiceInstance.ServiceId instance = MicroServiceInstance.ServiceId inst ∧
  MicroServiceInstance.InstanceId instance =
    (if decide (MicroServiceInstance.InstanceId inst = "")
     then GetInstanceId o else MicroServiceInstance.InstanceId inst).
Proof.
  intros Hrun.
  destruct (preProcessRegisterInstance_run E o ctx inst w) as (i & e & Hrun' & Hshape).
  rewrite Hrun in Hrun'. injection Hrun' as <- <- _.
  assert (MicroServiceInstance.ServiceId (checkHealthCheck (fillIdentity o inst)).1 =
            MicroServiceInstance.ServiceId inst ∧
          MicroServiceInstance.InstanceId (checkHealthCheck (fillIdentity o inst)).1 =
            (if decide (MicroServiceInstance.InstanceId inst = "")
             then GetInstanceId o else MicroServiceInstance.InstanceId inst)) as Hchecked.
  { unfold checkHealthCheck. destruct inst as [iid sid eps host status hc ts mts ver].
    cbn. destruct hc as [[[] interval times]|]; cbn; [|done..].
    by destruct (_ || _). }
  destruct (checkHealthCheck (fillIdentity o inst)) as [checked [cerr|]]; cbn in Hchecked.
  { by destruct Hshape as [-> _]. }
  destruct (GetService E (store w) ctx (ParseDomainProject ctx)
              (MicroServiceInstance.ServiceId checked)) as [[service|] [gerr|]];
    by destruct Hshape as [-> _].
Qed.

(** The commit phase: it fails and leaves the store, or it commits. *)
Lemma registerCommit_leaves E o domainProject instance ttl reporter w0 :
  ∃ resp err w' mid,
    registerCommit E o domainProject instance ttl reporter w0 = Done (resp, err) w' ∧
    calls w' = calls w0 ++ mid ∧
    (is_Some err ↔
     internal_code (Response.Code (RegisterInstanceResponse.Response resp)) = true) ∧
    ((store w' = store w0 ∧
      (∀ c, c ∈ mid → backend_call c) ∧
      (leases w' = leases w0 ∨ ∃ l ttl', leases w' = <[l := ttl']> (leases w0))) ∨
     ∃ data leaseID,
       json_Marshal E instance = inl data ∧
       LeaseGrantAnswer o = inl leaseID ∧
       version_of (store w0)
         (GenerateServiceKey (RootKey E) domainProject
            (MicroServiceInstance.ServiceId instance)) ≠ 0 ∧
       store w' =
         apply_ops (store w0) (commit_puts (RootKey E) domainProject instance data leaseID) ∧
       leases w' = <[leaseID := ttl]> (leases w0) ∧
       mid = [CallLeaseGrant ttl;
              commit_call (RootKey E) domainProject instance data leaseID] ++
             report_calls reporter ∧
       resp = RegisterInstanceResponse.mk
                (CreateResponse Response_SUCCESS "Register service instance successfully.")
                (MicroServiceInstance.InstanceId instance) ∧
       err = None).
Proof.
  destruct (registerCommit_run E o domainProject instance ttl reporter w0)
    as ([resp err] & w' & Hrun & H).
  exists resp, err, w'.
  assert (∀ c, c ∈ [CallLeaseGrant ttl] → backend_call c) as Hgrant1.
  { intros c ->%list_elem_of_singleton. left. eauto. }
  assert (∀ data leaseID c,
            c ∈ [CallLeaseGrant ttl;
                 commit_call (RootKey E) domainProject instance data leaseID] →
            backend_call c) as Hgrant2.
  { intros data leaseID c [-> | Hc]%elem_of_cons;
      [|apply list_elem_of_singleton in Hc as ->].
    - left. eauto.
    - right. unfold commit_call. eauto. }
  destruct (json_Marshal E instance) as [data|merr].
  2: { destruct H as [-> [= -> ->]]. exists []. rewrite app_nil_r.
       split_and!; [done..| |].
       - cbn. split; [done|eauto].
       - left. split_and!; [done| by intros c ?%elem_of_nil | by left]. }
  destruct (LeaseGrantAnswer o) as [leaseID|gerr].
  2: { destruct H as [-> [= -> ->]]. exists [CallLeaseGrant ttl].
       split_and!; [done..| |].
       - cbn. split; [done|eauto].
       - left. split_and!; [done..| by left]. }
  destruct H as [Hleases H]. destruct (TxnError o) as [terr|].
  { destruct H as (Hstore & Hcalls & [= -> ->]). eexists.
    split_and!; [done..| |].
    - cbn. split; [done|eauto].
    - left. split_and!; [done| by apply Hgrant2 | right; eauto]. }
  destruct (decide _) as [Hver|Hver].
  - destruct H as (Hstore & Hcalls & [= -> ->]). eexists.
    split_and!; [done..| |].
    + cbn. split; [by intros [? ?]|done].
    + left. split_and!; [done| by apply Hgrant2 | right; eauto].
  - destruct H as (Hstore & Hcalls & [= -> ->]). eexists.
    split_and!; [done..| |].
    + cbn. split; [by intros [? ?]|done].
    + right. exists data, leaseID. by split_and!.
Qed.

(** Every run of [Register] returns, with a transport error exactly when
    the code of the response is an internal one, and as
    [Register_summary] says. *)
Lemma Register_leaves E o ctx in_ w :
  ∃ resp err w' pre mid post,
    Register E o ctx in_ w = Done (resp, err) w' ∧
    (is_Some err ↔
     internal_code (Response.Code (RegisterInstanceResponse.Response resp)) = true) ∧
    Register_summary E o ctx in_ w resp err w' pre mid post.
Proof.
  assert (∀ resp (err : option error),
            (is_Some err ↔
             internal_code (Response.Code (RegisterInstanceResponse.Response resp)) = true) →
            ∃ resp' err' w' pre mid post,
              Done (resp, err) w = Done (resp', err') w' ∧
              (is_Some err' ↔
               internal_code (Response.Code (RegisterInstanceResponse.Response resp')) = true) ∧
              Register_summary E o ctx in_ w resp' err' w' pre mid post) as Hidle.
  { intros resp err Hpolicy. exists resp, err, w, [], [], []. unfold Register_summary.
    rewrite !app_nil_r. split_and!; [done..| by left |]. left. split_and!; [done| |by left].
    by intros c ?%elem_of_nil. }
  destruct (Validate E (RegisterRequest in_)) as [verr|] eqn:Hvalid.
  { unfold Register, reply. rewrite Hvalid. apply Hidle. split; [by intros [? ?]|done]. }
  destruct (InstanceExist E (store w) ctx (RegisterInstanceRequest.Instance in_))
    as [oldInstanceId [checkErr|]] eqn:Hexist.
  { register_prologue Hvalid Hexist. apply Hidle. apply internal_code_policy. }
  destruct (decide (oldInstanceId ≠ "")) as [Hold|Hold].
  { register_prologue Hvalid Hexist. rewrite decide_True by done. apply Hidle.
    split; [by intros [? ?]|done]. }
  apply dec_stable in Hold as ->. rewrite Register_fresh by done.
  destruct (preProcessRegisterInstance_run E o ctx (RegisterInstanceRequest.Instance in_) w)
    as (instance & perr & Hpre & _).
  rewrite Hpre. destruct perr as [perr|].
  { apply Hidle. cbn.
    destruct (preProcessRegisterInstance_error _ _ _ _ _ _ _ _ Hpre) as [-> | ->];
      (split; [by intros [? ?]|done]). }
  destruct (preProcessRegisterInstance_Some _ _ _ _ _ _ _ Hpre) as [hc Hhc].
  destruct (preProcessRegisterInstance_identity _ _ _ _ _ _ _ _ Hpre) as [Hsid _].
  rewrite (registerAdmit_run E o ctx instance hc) by done.
  destruct (IsSCInstance ctx) eqn:Hsc.
  - destruct (registerCommit_leaves E o (ParseDomainProject ctx) instance (leaseTTL hc) None w)
      as (resp & err & w' & mid & -> & Hcalls & Hpolicy & Hcases).
    exists resp, err, w', [], mid, []. split; [done|]. split; [done|].
    unfold Register_summary. rewrite app_nil_r. split_and!; [done| by left |].
    destruct Hcases as [?|(data & leaseID & ? & ? & ? & ? & ? & -> & -> & ->)]; [by left|].
    right. exists instance, hc, data, leaseID. rewrite decide_True by done.
    by split_and!.
  - set (apply := CallApply4Quotas _).
    destruct (ApplyQuotaResult.Err (QuotaAnswer o)) as [qerr|].
    { do 2 eexists. eexists. exists [apply], [], (close_calls (Some (QuotaAnswer o))).
      split; [done|]. split; [apply internal_code_policy|].
      unfold Register_summary. split_and!.
      - simpl. by rewrite <- app_assoc.
      - right. by rewrite <- Hsid.
      - left. split_and!; [done| by intros c ?%elem_of_nil | by left]. }
    destruct (registerCommit_leaves E o (ParseDomainProject ctx) instance (leaseTTL hc)
                (Some (QuotaAnswer o)) (log_calls [apply] w))
      as (resp & err & w' & mid & -> & Hcalls & Hpolicy & Hcases).
    exists resp, err, (log_calls (close_calls (Some (QuotaAnswer o))) w'),
      [apply], mid, (close_calls (Some (QuotaAnswer o))).
    split; [done|]. split; [done|].
    unfold Register_summary. split_and!.
    + simpl. rewrite Hcalls. simpl. by rewrite <- !app_assoc.
    + right. by rewrite <- Hsid.
    + destruct Hcases as [?|(data & leaseID & ? & ? & ? & ? & ? & -> & -> & ->)]; [by left|].
      right. exists instance, hc, data, leaseID. rewrite decide_False by done.
      by split_and!.
Qed.

Lemma internal_code_spec c :
  internal_code c = true ↔ c = ErrInternal ∨ c = ErrUnavailableBackend.
Proof. destruct c; cbn; naive_solver. Qed.

Lemma not_backend_call_quota c :
  backend_call c →
  (∀ res, c ≠ CallApply4Quotas res) ∧ c ≠ CallQuotaClose ∧ c ≠ CallReportUsedQuota ∧
  (∀ leaseID, c ≠ CallLeaseRevoke leaseID) ∧
  (∀ domainProject consumer provider,
     c ≠ CallAddServiceVersionRule domainProject consumer provider).
Proof. intros [[ttl ->]|(success & cmps & fail & ->)]; by split_and!. Qed.

(** The two puts of the commit change the store. *)
Lemma commit_puts_changes root domainProject instance data leaseID (st : Store) :
  apply_ops st (commit_puts root domainProject instance data leaseID) ≠ st.
Proof.
  intros Heq.
  destruct (commit_puts_lookup root domainProject instance data leaseID st) as (Hkey & _).
  cbn zeta in Hkey. rewrite Heq in Hkey. unfold version_of in Hkey. rewrite Hkey in Hkey.
  cbn in Hkey. injection Hkey as Hver. lia.
Qed.


(** X2.  [Register] never removes anything: every key of the store and
    every live lease is still there when it returns, and among the calls
    it makes there is no lease revocation and no dependency write. *)
Theorem Register_never_removes E o ctx in_ w :
  let w' := world_of (Register E o ctx in_ w) in
  dom (store w) ⊆ dom (store w') ∧
  dom (leases w) ⊆ dom (leases w') ∧
  ∀ c, c ∈ new_calls w w' →
    (∀ leaseID, c ≠ CallLeaseRevoke leaseID) ∧
    (∀ domainProject consumer provider,
       c ≠ CallAddServiceVersionRule domainProject consumer provider).
Proof.
  destruct (Register_leaves E o ctx in_ w)
    as (resp & err & w' & pre & mid & post & -> & _ & Hcalls & Hquota & Hcases).
  cbn. rewrite (new_calls_app _ _ _ Hcalls).
  assert (∀ c, c ∈ pre ∨ c ∈ post →
            (∀ leaseID, c ≠ CallLeaseRevoke leaseID) ∧
            (∀ domainProject consumer provider,
               c ≠ CallAddServiceVersionRule domainProject consumer provider)) as Hends.
  { intros c Hc. destruct Hquota as [[-> ->]|(_ & -> & ->)].
    - destruct Hc as [Hc|Hc]; by apply elem_of_nil in Hc.
    - destruct Hc as [Hc|Hc];
        [apply list_elem_of_singleton in Hc as -> | apply elem_of_close_calls in Hc as ->];
        by split. }
  destruct Hcases as [(-> & Hmid & Hleases)
                     |(instance & hc & data & leaseID & _ & _ & _ & _ & _ & -> & -> & -> & _)].
  - split; [done|]. split.
    { destruct Hleases as [->|(l & ttl & ->)]; [done|]. rewrite dom_insert_L. set_solver. }
    intros c [Hc|[Hc|Hc]%elem_of_app]%elem_of_app; [by apply Hends; left| |by apply Hends; right].
    apply Hmid, not_backend_call_quota in Hc. naive_solver.
  - split.
    { unfold apply_ops, commit_puts. cbn. rewrite !dom_insert_L. set_solver. }
    split; [rewrite dom_insert_L; set_solver|].
    intros c [Hc|[Hc|Hc]%elem_of_app]%elem_of_app; [by apply Hends; left| |by apply Hends; right].
    apply elem_of_app in Hc as [Hc|Hc].
    + apply elem_of_cons in Hc as [->|Hc]; [by split|].
      apply list_elem_of_singleton in Hc as ->. by split.
    + destruct (decide (pre = [])); [by apply elem_of_nil in Hc|].
      apply elem_of_report_calls in Hc as ->. by split.
Qed.

(** X3.  The quota reservation of [Register]: when a run applies for
    quota and the plugin hands out a reservation, the caller is not the
    registry itself, the request is for one instance of the request's
    service in the caller's tenant, the application is the first call of
    the run and the release the last, nothing in between applies or
    releases again, and usage is reported only by a run that answers
    SUCCESS.  The reservation's methods are modelled from the spec. *)
Theorem Register_quota_discipline E o ctx in_ w resp err w' res answer :
  Register E o ctx in_ w = Done (resp, err) w' →
  CallApply4Quotas res ∈ new_calls w w' →
  ApplyQuotaResult.Reporter (QuotaAnswer o) = Some answer →
  IsSCInstance ctx = false ∧
  res = ApplyQuotaResource.mk (ParseDomainProject ctx)
          (MicroServiceInstance.ServiceId (RegisterInstanceRequest.Instance in_)) 1 ∧
  ∃ mid,
    new_calls w w' = [CallApply4Quotas res] ++ mid ++ [CallQuotaClose] ∧
    (CallQuotaClose ∉ mid) ∧
    (∀ res', CallApply4Quotas res' ∉ mid) ∧
    (CallReportUsedQuota ∈ mid →
     Response.Code (RegisterInstanceResponse.Response resp) = Response_SUCCESS).
Proof.
  intros Hrun Hres Hreporter.
  destruct (Register_leaves E o ctx in_ w)
    as (resp' & err' & w'' & pre & mid & post & Hrun' & _ & Hcalls & Hquota & Hcases).
  rewrite Hrun in Hrun'. injection Hrun' as <- <- <-.
  rewrite (new_calls_app _ _ _ Hcalls) in Hres |- *.
  assert (∀ c, c ∈ mid →
            (∀ res', c ≠ CallApply4Quotas res') ∧ c ≠ CallQuotaClose ∧
            (c = CallReportUsedQuota →
             Response.Code (RegisterInstanceResponse.Response resp) = Response_SUCCESS))
    as Hmid.
  { intros c Hc.
    destruct Hcases as [(_ & Hbackend & _)
                       |(instance & hc & data & leaseID & _ & _ & _ & _ & _ & _ & _ &
                         -> & -> & _)].
    - apply Hbackend, not_backend_call_quota in Hc. naive_solver.
    - apply elem_of_app in Hc as [Hc|Hc].
      + apply elem_of_cons in Hc as [->|Hc]; [by split_and!|].
        apply list_elem_of_singleton in Hc as ->. by split_and!.
      + destruct (decide (pre = [])); [by apply elem_of_nil in Hc|].
        apply elem_of_report_calls in Hc as ->. by split_and!. }
  destruct Hquota as [[-> ->]|(Hsc & -> & ->)].
  { rewrite app_nil_l, app_nil_r in Hres. destruct (Hmid _ Hres) as [Hno _].
    by destruct (Hno res). }
  assert (close_calls (Some (QuotaAnswer o)) = [CallQuotaClose]) as Hclose.
  { unfold close_calls. cbn. by rewrite Hreporter. }
  rewrite Hclose in Hres |- *.
  apply elem_of_app in Hres as [Hres|Hres].
  2: { apply elem_of_app in Hres as [Hres|Hres].
       - destruct (Hmid _ Hres) as [Hno _]. by destruct (Hno res).
       - by apply list_elem_of_singleton in Hres. }
  apply list_elem_of_singleton in Hres. injection Hres as ->.
  split; [done|]. split; [done|]. exists mid. split; [done|]. split_and!.
  - intros Hc. by destruct (Hmid _ Hc) as (_ & Hno & _).
  - intros res' Hc. destruct (Hmid _ Hc) as (Hno & _). by destruct (Hno res').
  - intros Hc. destruct (Hmid _ Hc) as (_ & _ & Hreport). by apply Hreport.
Qed.

(** A tenant registers an instance of [s1]: quota is applied for first,
    the lease is granted, the commit is reported, and the reservation is
    released last. *)
Lemma Register_quota_discipline_witness :
  let run :=
    Register Sample.externals Sample.oracle Sample.tenant
      (Sample.request Sample.heartbeat_30_3) Sample.with_service in
  let res := ApplyQuotaResource.mk "default/default" "s1" 1 in
  ∃ mid,
    new_calls Sample.with_service (world_of run) =
      [CallApply4Quotas res] ++ mid ++ [CallQuotaClose] ∧
    (CallQuotaClose ∉ mid).
Proof.
  intros run res.
  destruct (Register_quota_discipline Sample.externals Sample.oracle Sample.tenant
              (Sample.request Sample.heartbeat_30_3) Sample.with_service
              (RegisterInstanceResponse.mk
                 (CreateResponse Response_SUCCESS "Register service instance successfully.")
                 "I1")
              None (world_of run) res None)
    as (_ & _ & mid & Hmid & Hclose & _).
  - vm_compute. reflexivity.
  - vm_compute. constructor.
  - reflexivity.
  - exists mid. split; [exact Hmid | exact Hclose].
Defined.

(** X4.  What a changed store means: when [Register] returns with a
    store that differs from the one it started on, the response is
    SUCCESS without a transport error, the instance id it carries is the
    caller's, or the generated one when the caller gave none, and the
    instance key and the lease key of that id under the request's service
    are in the store, both owned by the lease the backend granted, which
    is live. *)
Theorem Register_store_change E o ctx in_ w resp err w' :
  Register E o ctx in_ w = Done (resp, err) w' →
  store w' ≠ store w →
  let inst := RegisterInstanceRequest.Instance in_ in
  let serviceId := MicroServiceInstance.ServiceId inst in
  let instanceId := RegisterInstanceResponse.InstanceId resp in
  err = None ∧
  Response.Code (RegisterInstanceResponse.Response resp) = Response_SUCCESS ∧
  instanceId =
    (if decide (MicroServiceInstance.InstanceId inst = "")
     then GetInstanceId o else MicroServiceInstance.InstanceId inst) ∧
  ∃ leaseID,
    LeaseGrantAnswer o = inl leaseID ∧
    KeyValue.Lease <$>
      store w' !! GenerateInstanceKey (RootKey E) (ParseDomainProject ctx) serviceId instanceId =
      Some leaseID ∧
    KeyValue.Lease <$>
      store w' !! GenerateInstanceLeaseKey (RootKey E) (ParseDomainProject ctx) serviceId
                    instanceId =
      Some leaseID ∧
    is_Some (leases w' !! leaseID).
Proof.
  intros Hrun Hchanged inst serviceId instanceId.
  destruct (Register_leaves E o ctx in_ w)
    as (resp' & err' & w'' & pre & mid & post & Hrun' & _ & _ & _ & Hcases).
  rewrite Hrun in Hrun'. injection Hrun' as <- <- <-.
  destruct Hcases as [(Hstore & _)
                     |(instance & hc & data & leaseID & Hpre & _ & _ & Hgrant & _ & Hstore &
                       Hleases & _ & -> & ->)]; [done|].
  destruct (preProcessRegisterInstance_identity _ _ _ _ _ _ _ _ Hpre) as [Hsid Hiid].
  split; [done|]. split; [done|]. subst instanceId serviceId inst. cbn.
  split; [done|]. exists leaseID. split; [done|].
  destruct (commit_puts_lookup (RootKey E) (ParseDomainProject ctx) instance data leaseID
              (store w)) as (Hkey & HhbKey & _).
  cbn zeta in Hkey, HhbKey. rewrite <- Hstore, Hsid in Hkey, HhbKey.
  rewrite Hkey, HhbKey, Hleases, lookup_insert_eq. by split_and!.
Qed.

(** The registration of [I1] changes the store: both keys are there
    under lease 77. *)
Lemma Register_store_change_witness :
  let run :=
    Register Sample.externals Sample.oracle Sample.tenant
      (Sample.request Sample.heartbeat_30_3) Sample.with_service in
  store (world_of run) ≠ store Sample.with_service ∧
  KeyValue.Lease <$>
    store (world_of run) !! GenerateInstanceKey Sample.root "default/default" "s1" "I1" =
    Some 77.
Proof.
  intros run.
  assert (store (world_of run) ≠ store Sample.with_service) as Hchanged.
  { intros Heq.
    assert (store (world_of run)
              !! GenerateInstanceKey Sample.root "default/default" "s1" "I1" =
            store Sample.with_service
              !! GenerateInstanceKey Sample.root "default/default" "s1" "I1") as Hkey
      by (by rewrite Heq).
    vm_compute in Hkey. discriminate Hkey. }
  split; [exact Hchanged|].
  destruct (Register_store_change Sample.externals Sample.oracle Sample.tenant
              (Sample.request Sample.heartbeat_30_3) Sample.with_service
              (RegisterInstanceResponse.mk
                 (CreateResponse Response_SUCCESS "Register service instance successfully.")
                 "I1")
              None (world_of run))
    as (_ & _ & _ & leaseID & Hgrant & Hkey & _).
  - vm_compute. reflexivity.
  - exact Hchanged.
  - injection Hgrant as <-. exact Hkey.
Defined.

(** ** Unregister *)

(** A run of [Unregister]: it fails and leaves the keys and the leases,
    or it revokes the lease of the instance. *)
Lemma Unregister_leaves U failure ctx in_ w :
  let domainProject := ParseDomainProject ctx in
  let serviceId := UnregisterInstanceRequest.ServiceId in_ in
  let instanceId := UnregisterInstanceRequest.InstanceId in_ in
  ∃ resp err w',
    Unregister U failure ctx in_ w = Done (resp, err) w' ∧
    (is_Some err ↔ internal_code (Response.Code resp) = true) ∧
    ((Response.Code resp ≠ Response_SUCCESS ∧ store w' = store w ∧ leases w' = leases w ∧
      (calls w' = calls w ∨ ∃ leaseID, calls w' = calls w ++ [CallLeaseRevoke leaseID])) ∨
     ∃ leaseID,
       ValidateLookup U (UnregisterRequest in_) = None ∧
       InstanceExistById U (store w) ctx domainProject serviceId instanceId = (true, None) ∧
       GetLeaseId U (store w) ctx domainProject serviceId instanceId = (leaseID, None) ∧
       leaseID ≠ -1 ∧ failure = None ∧
       store w' = revoke_keys (store w) leaseID ∧
       leases w' = delete leaseID (leases w) ∧
       calls w' = calls w ++ [CallLeaseRevoke leaseID] ∧
       resp = CreateResponse Response_SUCCESS "Unregister service instance successfully." ∧
       err = None).
Proof.
  intros domainProject serviceId instanceId. unfold Unregister.
  destruct (ValidateLookup U (UnregisterRequest in_)) as [verr|] eqn:Hvalid.
  { cbn beta iota. do 3 eexists. split; [reflexivity|]. split; [by split; [intros [? ?]|]|].
    left. split_and!; [done..|by left]. }
  unfold mbind, M_bind, get_store, mret, M_ret. cbn beta iota zeta.
  subst domainProject serviceId instanceId.
  destruct (InstanceExistById U (store w) ctx _ _ _) as [isExist [eerr|]] eqn:Hexist.
  { destruct isExist; cbn beta iota; do 3 eexists;
      (split; [reflexivity|]); (split; [by split; [eauto|]|]);
      left; (split_and!; [done..|by left]). }
  destruct isExist.
  2: { cbn beta iota. do 3 eexists. split; [reflexivity|]. split; [by split; [intros [? ?]|]|].
       left. split_and!; [done..|by left]. }
  unfold revokeInstance, mbind, M_bind, get_store, mret, M_ret. cbn beta iota zeta.
  destruct (GetLeaseId U (store w) ctx _ _ _) as [leaseID [lerr|]] eqn:Hlease.
  { cbn beta iota. do 3 eexists. split; [reflexivity|]. split; [by split; [eauto|]|].
    left. split_and!; [done..|by left]. }
  destruct (decide (leaseID = -1)) as [->|Hid].
  { cbn beta iota. do 3 eexists. split; [reflexivity|]. split; [by split; [intros [? ?]|]|].
    left. split_and!; [done..|by left]. }
  unfold Registry_LeaseRevoke, LeaseRevoke, call, mbind, M_bind, mret, M_ret.
  destruct failure as [rerr|]; cbn.
  { cbn beta iota. do 3 eexists. split; [reflexivity|]. split; [by split; [eauto|]|].
    left. split_and!; [done..|]. right. by exists leaseID. }
  cbn beta iota. do 3 eexists. split; [reflexivity|]. split; [by split; [intros [? ?]|]|].
  right. exists leaseID. by split_and!.
Qed.

(** Revoking the lease of a commit whose lease owned no key before
    removes the two keys of the commit, and nothing else. *)
Lemma revoke_commit root domainProject instance data leaseID (st : Store) :
  (∀ k kv, st !! k = Some kv → KeyValue.Lease kv ≠ leaseID) →
  revoke_keys (apply_ops st (commit_puts root domainProject instance data leaseID)) leaseID =
  delete (GenerateInstanceKey root domainProject (MicroServiceInstance.ServiceId instance)
            (MicroServiceInstance.InstanceId instance))
    (delete (GenerateInstanceLeaseKey root domainProject
               (MicroServiceInstance.ServiceId instance)
               (MicroServiceInstance.InstanceId instance)) st).
Proof.
  intros Hfresh.
  destruct (commit_puts_lookup root domainProject instance data leaseID st)
    as (Hkey & HhbKey & Hother).
  cbn zeta in Hkey, HhbKey, Hother.
  set (st' := apply_ops st _) in *. set (key := GenerateInstanceKey _ _ _ _) in *.
  set (hbKey := GenerateInstanceLeaseKey _ _ _ _) in *.
  apply map_eq. intros k. apply option_eq. intros kv.
  unfold revoke_keys. rewrite map_lookup_filter_Some. cbn.
  destruct (decide (k = key)) as [->|Hk].
  { rewrite lookup_delete_eq, Hkey. split; [|done]. by intros [[= <-] Hne]. }
  rewrite lookup_delete_ne by done.
  destruct (decide (k = hbKey)) as [->|Hk'].
  { rewrite lookup_delete_eq, HhbKey. split; [|done]. by intros [[= <-] Hne]. }
  rewrite lookup_delete_ne, Hother by done.
  split; [by intros [? _]|]. intros Hkv. split; [done|]. by eapply Hfresh.
Qed.

(** X5.  [Unregister] returns on every request, with a transport error
    exactly when its code is Internal or UnavailableBackend.  A run that
    does not answer SUCCESS leaves every key and every lease as it was;
    a run that answers SUCCESS made one call, the revocation of the lease
    that [GetLeaseId] reported, and the store lost the keys that lease
    owned.  In no case is a key added or rewritten.  The effect of the
    revocation on the store is modelled from the spec. *)
Theorem Unregister_outcome U failure ctx in_ w :
  ∃ resp err w',
    Unregister U failure ctx in_ w = Done (resp, err) w' ∧
    (is_Some err ↔
     Response.Code resp = ErrInternal ∨ Response.Code resp = ErrUnavailableBackend) ∧
    (Response.Code resp ≠ Response_SUCCESS → store w' = store w ∧ leases w' = leases w) ∧
    (Response.Code resp = Response_SUCCESS →
     ∃ leaseID,
       GetLeaseId U (store w) ctx (ParseDomainProject ctx)
         (UnregisterInstanceRequest.ServiceId in_)
         (UnregisterInstanceRequest.InstanceId in_) = (leaseID, None) ∧
       leaseID ≠ -1 ∧
       store w' = revoke_keys (store w) leaseID ∧
       leases w' = delete leaseID (leases w) ∧
       new_calls w w' = [CallLeaseRevoke leaseID]) ∧
    store w' ⊆ store w.
Proof.
  destruct (Unregister_leaves U failure ctx in_ w)
    as (resp & err & w' & Hrun & Hpolicy & Hcases).
  exists resp, err, w'. split; [done|]. split; [by rewrite Hpolicy, internal_code_spec|].
  destruct Hcases as [(Hcode & Hstore & Hleases & _)
                     |(leaseID & _ & _ & Hlease & Hid & _ & Hstore & Hleases & Hcalls &
                       -> & _)].
  - split; [done|]. split; [done|]. by rewrite Hstore.
  - split; [done|]. split.
    + intros _. exists leaseID. split_and!; [done..|]. by apply new_calls_app.
    + rewrite Hstore. apply map_filter_subseteq.
Qed.

(** X6.  [Unregister] keeps the pairing of instance keys and lease keys:
    if in the store every instance key and the lease key of the same
    instance are owned by the same lease or both absent, this still holds
    when [Unregister] returns, whatever it answers. *)
Theorem Unregister_preserves_pairing U failure ctx in_ root w :
  paired root (store w) →
  paired root (store (world_of (Unregister U failure ctx in_ w))).
Proof.
  intros Hpaired.
  destruct (Unregister_leaves U failure ctx in_ w)
    as (resp & err & w' & -> & _ & Hcases). cbn.
  destruct Hcases as [(_ & -> & _)|(leaseID & _ & _ & _ & _ & _ & -> & _)]; [done|].
  by apply paired_revoke.
Qed.

(** [I1] registers under [s1] and is unregistered: the pairing holds in
    the registered state, and in the state after, which holds the service
    key only. *)
Lemma Unregister_preserves_pairing_witness :
  let w :=
    world_of (Register Sample.externals Sample.oracle Sample.tenant
                (Sample.request Sample.heartbeat_30_3) Sample.with_service) in
  let w' :=
    world_of (Unregister SampleReaders.readers None Sample.tenant
                (UnregisterInstanceRequest.mk "s1" "I1") w) in
  paired Sample.root (store w) ∧ paired Sample.root (store w') ∧
  store w' !! GenerateInstanceKey Sample.root "default/default" "s1" "I1" = None.
Proof.
  intros w w'.
  assert (paired Sample.root (store w)) as Hw.
  { apply (paired_reachable Sample.externals). eapply rtc_l.
    - apply (step_service_put Sample.externals "default/default" "s1" "1.0.0").
    - eapply rtc_l; [|apply rtc_refl].
      eapply (step_Register Sample.externals Sample.oracle Sample.tenant
                (Sample.request Sample.heartbeat_30_3)).
      vm_compute. reflexivity. }
  split; [exact Hw|]. split; [|vm_compute; reflexivity].
  apply (Unregister_preserves_pairing SampleReaders.readers None Sample.tenant
           (UnregisterInstanceRequest.mk "s1" "I1") Sample.root w).
  exact Hw.
Defined.

(** X7.  [Unregister] undoes [Register]: after a registration that
    changed the store, under a lease that owned no key before, the
    unregistration of the instance id the response carries, by readers
    that see the instance and its lease, answers SUCCESS, and leaves the
    store that [Register] started on without the two keys of the
    instance, and the leases it started on without the granted one.  If
    the instance was new and the lease id fresh, store and leases are
    those before the registration. *)
Theorem Unregister_undoes_Register E U o ctx in_ w resp err w1 leaseID :
  let domainProject := ParseDomainProject ctx in
  let serviceId :=
    MicroServiceInstance.ServiceId (RegisterInstanceRequest.Instance in_) in
  let instanceId := RegisterInstanceResponse.InstanceId resp in
  let key := GenerateInstanceKey (RootKey E) domainProject serviceId instanceId in
  let hbKey := GenerateInstanceLeaseKey (RootKey E) domainProject serviceId instanceId in
  let out := UnregisterInstanceRequest.mk serviceId instanceId in
  Register E o ctx in_ w = Done (resp, err) w1 →
  store w1 ≠ store w →
  LeaseGrantAnswer o = inl leaseID →
  (∀ k kv, store w !! k = Some kv → KeyValue.Lease kv ≠ leaseID) →
  ValidateLookup U (UnregisterRequest out) = None →
  InstanceExistById U (store w1) ctx domainProject serviceId instanceId = (true, None) →
  GetLeaseId U (store w1) ctx domainProject serviceId instanceId = (leaseID, None) →
  leaseID ≠ -1 →
  ∃ w2,
    Unregister U None ctx out w1 =
      Done (CreateResponse Response_SUCCESS "Unregister service instance successfully.",
            None) w2 ∧
    store w2 = delete key (delete hbKey (store w)) ∧
    leases w2 = delete leaseID (leases w) ∧
    (store w !! key = None → store w !! hbKey = None → leases w !! leaseID = None →
     store w2 = store w ∧ leases w2 = leases w).
Proof.
  intros domainProject serviceId instanceId key hbKey out
    Hrun Hchanged Hgrant Hfresh Hvalid Hexist Hlease Hid.
  destruct (Register_leaves E o ctx in_ w)
    as (resp' & err' & w'' & pre & mid & post & Hrun' & _ & _ & _ & Hcases).
  rewrite Hrun in Hrun'. injection Hrun' as <- <- <-.
  destruct Hcases as [(Hstore & _)
                     |(instance & hc & data & leaseID' & Hpre & _ & _ & Hgrant' & _ & Hstore &
                       Hleases & _ & Hresp & _)]; [done|].
  rewrite Hgrant in Hgrant'. injection Hgrant' as <-.
  destruct (preProcessRegisterInstance_identity _ _ _ _ _ _ _ _ Hpre) as [Hsid _].
  assert (MicroServiceInstance.InstanceId instance = instanceId) as Hiid
    by (subst instanceId; by rewrite Hresp).
  destruct (Unregister_leaves U None ctx out w1)
    as (r & e & w2 & Hun & _ & Hcases).
  cbn zeta in Hcases. cbn [UnregisterInstanceRequest.ServiceId
                           UnregisterInstanceRequest.InstanceId out] in Hcases.
  fold domainProject in Hcases.
  destruct Hcases as [(Hcode & _)
                     |(l & _ & _ & Hlease' & _ & _ & Hstore2 & Hleases2 & _ & -> & ->)].
  { exfalso. revert Hun Hcode. unfold Unregister. rewrite Hvalid.
    unfold mbind, M_bind, get_store, mret, M_ret. cbn beta iota zeta.
    cbn [UnregisterInstanceRequest.ServiceId UnregisterInstanceRequest.InstanceId out].
    fold domainProject. rewrite Hexist. cbn beta iota.
    unfold revokeInstance, mbind, M_bind, get_store, mret, M_ret. cbn beta iota zeta.
    rewrite Hlease. cbn beta iota zeta. rewrite decide_False by done.
    cbn. by intros [= <- _ _]. }
  rewrite Hlease in Hlease'. injection Hlease' as <-.
  exists w2. split; [done|].
  assert (store w2 = delete key (delete hbKey (store w))) as Hstore2'.
  { rewrite Hstore2, Hstore.
    rewrite (revoke_commit (RootKey E) (ParseDomainProject ctx) instance data leaseID
               (store w) Hfresh).
    subst key hbKey domainProject. by rewrite Hsid, Hiid. }
  assert (leases w2 = delete leaseID (leases w)) as Hleases2'.
  { by rewrite Hleases2, Hleases, delete_insert_eq. }
  split; [done|]. split; [done|].
  intros Hkey HhbKey Hl. rewrite Hstore2', Hleases2'.
  rewrite (delete_id _ hbKey) by done. rewrite (delete_id _ key) by done.
  by rewrite (delete_id _ leaseID).
Qed.

(** [I1] registers under [s1] with the fresh lease 77 and is
    unregistered: the store and the leases are those before the
    registration. *)
Lemma Unregister_undoes_Register_witness :
  let w1 :=
    world_of (Register Sample.externals Sample.oracle Sample.tenant
                (Sample.request Sample.heartbeat_30_3) Sample.with_service) in
  ∃ w2,
    Unregister SampleReaders.readers None Sample.tenant
      (UnregisterInstanceRequest.mk "s1" "I1") w1 =
      Done (CreateResponse Response_SUCCESS "Unregister service instance successfully.",
            None) w2 ∧
    store w2 = store Sample.with_service ∧
    leases w2 = leases Sample.with_service.
Proof.
  intros w1.
  destruct (Unregister_undoes_Register Sample.externals SampleReaders.readers Sample.oracle
              Sample.tenant (Sample.request Sample.heartbeat_30_3) Sample.with_service
              (RegisterInstanceResponse.mk
                 (CreateResponse Response_SUCCESS "Register service instance successfully.")
                 "I1")
              None w1 77)
    as (w2 & Hrun & _ & _ & Hsame).
  - vm_compute. reflexivity.
  - intros Heq.
    assert (store w1 !! GenerateInstanceKey Sample.root "default/default" "s1" "I1" =
            store Sample.with_service
              !! GenerateInstanceKey Sample.root "default/default" "s1" "I1") as Hkey
      by (by rewrite Heq).
    vm_compute in Hkey. discriminate Hkey.
  - reflexivity.
  - intros k kv Hk. unfold Sample.with_service in Hk. cbn [store] in Hk.
    apply lookup_insert_Some in Hk as [[_ <-]|[_ Hk]]; [cbn; lia|].
    by rewrite lookup_empty in Hk.
  - reflexivity.
  - vm_compute. reflexivity.
  - vm_compute. reflexivity.
  - lia.
  - exists w2. split; [exact Hrun|]. apply Hsame; vm_compute; reflexivity.
Defined.

(** ** HeartbeatSet and Heartbeat *)

Lemma fanout_step_inv f e :
  fanout_inv f →
  let f' := fanout_step f e in
  fanout_inv f' ∧
  composite_key e ∈ dom (existFlag f') ∧
  dom (existFlag f) ⊆ dom (existFlag f') ∧
  (∀ e', e' ∈ scheduled f' → e' ∈ scheduled f ∨ e' = e) ∧
  (length (scheduled f') + length (warnings f') =
   length (scheduled f) + length (warnings f) + 1)%nat.
Proof.
  intros [Hdom Hnodup]. unfold fanout_step. fold (composite_key e).
  destruct (existFlag f !! composite_key e) as [flag|] eqn:Hflag; cbn.
  - split; [done|]. split; [by apply elem_of_dom|]. split; [done|].
    split; [by left|]. rewrite length_app. cbn. lia.
  - apply not_elem_of_dom in Hflag. split.
    { split; cbn.
      - rewrite dom_insert_L, fmap_app, list_to_set_app_L, Hdom. cbn. set_solver.
      - rewrite fmap_app. apply NoDup_app. split; [done|]. split; [|apply NoDup_singleton].
        intros k Hk ->%list_elem_of_singleton. apply Hflag. rewrite Hdom.
        by apply elem_of_list_to_set. }
    rewrite dom_insert_L. split; [set_solver|]. split; [set_solver|]. split.
    + intros e' [He'|He']%elem_of_app; [by left|]. right.
      by apply list_elem_of_singleton in He'.
    + rewrite length_app. cbn. lia.
Qed.

Lemma foldl_fanout_inv instances f :
  fanout_inv f →
  let f' := foldl fanout_step f instances in
  fanout_inv f' ∧
  (∀ e, e ∈ instances → composite_key e ∈ dom (existFlag f')) ∧
  dom (existFlag f) ⊆ dom (existFlag f') ∧
  (∀ e, e ∈ scheduled f' → e ∈ scheduled f ∨ e ∈ instances) ∧
  (length (scheduled f') + length (warnings f') =
   length (scheduled f) + length (warnings f) + length instances)%nat.
Proof.
  revert f. induction instances as [|e instances IH]; intros f Hf.
  { cbn. split; [done|]. split; [by intros e He%elem_of_nil|]. split; [done|].
    split; [by left|]. lia. }
  cbn [foldl]. destruct (fanout_step_inv f e Hf) as (Hf' & Hkey & Hsub & Hsched & Hlen).
  cbn zeta in Hf', Hkey, Hsub, Hsched, Hlen.
  destruct (IH _ Hf') as (Hinv & Hkeys & Hsub' & Hsched' & Hlen'). cbn zeta.
  split; [done|]. split_and!.
  - intros e' [->|He']%elem_of_cons; [by apply Hsub'|by apply Hkeys].
  - set_solver.
  - intros e' He'. destruct (Hsched' _ He') as [Hin|Hin].
    + destruct (Hsched _ Hin) as [?| ->]; [by left|right; apply list_elem_of_here].
    + right. by apply list_elem_of_further.
  - cbn [length]. lia.
Qed.

Lemma result_key_getHeartbeatFunc HeartbeatUtil domainProject e :
  result_key (getHeartbeatFunc HeartbeatUtil domainProject e) = composite_key e.
Proof. unfold getHeartbeatFunc. by destruct (HeartbeatUtil _ _ _). Qed.

Lemma existsb_failed_Permutation (l1 l2 : list InstanceHbRst.t) :
  l1 ≡ₚ l2 → existsb failed l1 = existsb failed l2.
Proof.
  induction 1 as [|x l1 l2 _ IH|x y l|l1 l2 l3 _ IH1 _ IH2]; cbn.
  - done.
  - by rewrite IH.
  - by rewrite !orb_assoc, (orb_comm (failed y)).
  - congruence.
Qed.

Lemma HeartbeatSet_instances HeartbeatUtil schedule ctx in_ :
  HeartbeatSetRequest.Instances in_ ≠ [] →
  ∃ resp,
    HeartbeatSet HeartbeatUtil schedule ctx in_ = Some (resp, None) ∧
    HeartbeatSetResponse.Instances resp ≡ₚ
      getHeartbeatFunc HeartbeatUtil (ParseDomainProject ctx) <$>
      scheduled (fanout (HeartbeatSetRequest.Instances in_)).
Proof.
  intros Hne. rewrite HeartbeatSet_run by done. eexists. split; [done|].
  etrans; [|apply (deliver_Permutation schedule)]. by destruct (existsb _ _).
Qed.

(** X8.  [HeartbeatSet] acknowledges every composite key of the request
    exactly once: no two results share a key, every element of the
    request finds a result under its key, every result is the renewal of
    an element of the request, and every element was either scheduled or
    logged as a duplicate. *)
Theorem HeartbeatSet_each_key_once HeartbeatUtil schedule ctx in_ :
  HeartbeatSetRequest.Instances in_ ≠ [] →
  ∃ resp,
    HeartbeatSet HeartbeatUtil schedule ctx in_ = Some (resp, None) ∧
    NoDup (result_key <$> HeartbeatSetResponse.Instances resp) ∧
    (∀ e, e ∈ HeartbeatSetRequest.Instances in_ →
          ∃ r, r ∈ HeartbeatSetResponse.Instances resp ∧ result_key r = composite_key e) ∧
    (∀ r, r ∈ HeartbeatSetResponse.Instances resp →
          ∃ e, e ∈ HeartbeatSetRequest.Instances in_ ∧
               r = getHeartbeatFunc HeartbeatUtil (ParseDomainProject ctx) e) ∧
    (length (HeartbeatSetResponse.Instances resp) +
     length (warnings (fanout (HeartbeatSetRequest.Instances in_))) =
     length (HeartbeatSetRequest.Instances in_))%nat.
Proof.
  intros Hne.
  destruct (HeartbeatSet_instances HeartbeatUtil schedule ctx in_ Hne) as (resp & Hrun & Hperm).
  exists resp. split; [done|].
  destruct (foldl_fanout_inv (HeartbeatSetRequest.Instances in_) (mkFanout ∅ 0 [] []))
    as ([Hdom Hnodup] & Hkeys & _ & Hsched & Hlen).
  { split; cbn; [by rewrite dom_empty_L | constructor]. }
  cbn zeta in Hdom, Hnodup, Hkeys, Hsched, Hlen.
  fold (fanout (HeartbeatSetRequest.Instances in_)) in Hdom, Hnodup, Hkeys, Hsched, Hlen.
  set (results := getHeartbeatFunc HeartbeatUtil (ParseDomainProject ctx) <$> _) in Hperm.
  assert (result_key <$> results =
          composite_key <$> scheduled (fanout (HeartbeatSetRequest.Instances in_))) as Hkeys'.
  { subst results. rewrite <- list_fmap_compose. apply list_fmap_ext.
    intros i e _. apply result_key_getHeartbeatFunc. }
  split_and!.
  - apply (NoDup_Permutation_proper _ _ (fmap_Permutation result_key _ _ Hperm)).
    by rewrite Hkeys'.
  - intros e He. specialize (Hkeys e He). rewrite Hdom in Hkeys.
    apply elem_of_list_to_set, list_elem_of_fmap in Hkeys as (e' & Hkey & He').
    exists (getHeartbeatFunc HeartbeatUtil (ParseDomainProject ctx) e'). split.
    + rewrite Hperm. subst results. apply list_elem_of_fmap. eauto.
    + by rewrite result_key_getHeartbeatFunc.
  - intros r Hr. rewrite Hperm in Hr. subst results.
    apply list_elem_of_fmap in Hr as (e & -> & He). exists e. split; [|done].
    destruct (Hsched e He) as [Hnil|?]; [by apply elem_of_nil in Hnil|done].
  - pose proof (Permutation_length Hperm) as ->. subst results.
    rewrite length_fmap. cbn in Hlen. lia.
Qed.

(** Scenario "Batch heartbeat with duplicates and misses": two results
    under two keys, and one duplicate logged. *)
Lemma HeartbeatSet_each_key_once_witness :
  let in_ :=
    HeartbeatSetRequest.mk
      [Sample.element "s1" "I1"; Sample.element "s1" "I1"; Sample.element "s1" "I_missing"] in
  ∃ resp,
    HeartbeatSet Sample.lease_missing [1%nat; 0%nat] Sample.tenant in_ = Some (resp, None) ∧
    NoDup (result_key <$> HeartbeatSetResponse.Instances resp) ∧
    (length (HeartbeatSetResponse.Instances resp) + 1 = 3)%nat.
Proof.
  intros in_.
  destruct (HeartbeatSet_each_key_once Sample.lease_missing [1%nat; 0%nat] Sample.tenant in_)
    as (resp & Hrun & Hnodup & _ & _ & Hlen).
  - discriminate.
  - exists resp. split; [exact Hrun|]. split; [exact Hnodup|]. exact Hlen.
Defined.

(** X9.  The order in which the pool delivers the results does not
    matter to the caller of [HeartbeatSet]: under any two schedules the
    call returns, with the same code and message, no transport error, and
    the same results up to their order. *)
Theorem HeartbeatSet_schedule_independent HeartbeatUtil schedule1 schedule2 ctx in_ :
  ∃ resp1 resp2,
    HeartbeatSet HeartbeatUtil schedule1 ctx in_ = Some (resp1, None) ∧
    HeartbeatSet HeartbeatUtil schedule2 ctx in_ = Some (resp2, None) ∧
    HeartbeatSetResponse.Response resp1 = HeartbeatSetResponse.Response resp2 ∧
    HeartbeatSetResponse.Instances resp1 ≡ₚ HeartbeatSetResponse.Instances resp2.
Proof.
  destruct (decide (HeartbeatSetRequest.Instances in_ = [])) as [Hnil|Hne].
  { unfold HeartbeatSet. rewrite !decide_True by done. by do 2 eexists. }
  rewrite !HeartbeatSet_run by done.
  set (results := getHeartbeatFunc HeartbeatUtil (ParseDomainProject ctx) <$> _).
  assert (deliver schedule1 results ≡ₚ deliver schedule2 results) as Hperm.
  { etrans; [apply deliver_Permutation|]. symmetry. apply deliver_Permutation. }
  rewrite (existsb_failed_Permutation _ _ Hperm).
  do 2 eexists. split; [done|]. split; [done|]. by destruct (existsb _ _).
Qed.

(** X10.  [Heartbeat] and [HeartbeatSet] on the same instance.  For a
    valid request [Heartbeat] returns, answers SUCCESS exactly when the
    renewal reported no error (whatever TTL it reported), and gives a
    transport error exactly when the renewal failed with an inner error.
    [HeartbeatSet] on that one instance answers SUCCESS in the same
    cases and in one more: when the renewal failed with an error whose
    message is empty, because it tells failure by the message. *)
Theorem HeartbeatSet_singleton_and_Heartbeat U schedule ctx in_ w :
  ValidateLookup U (HeartbeatOneRequest in_) = None →
  let serviceId := HeartbeatRequest.ServiceId in_ in
  let instanceId := HeartbeatRequest.InstanceId in_ in
  let result := HeartbeatUtil U (store w) ctx (ParseDomainProject ctx) serviceId instanceId in
  ∃ resp err w' set,
    Heartbeat U ctx in_ w = Done (resp, err) w' ∧
    HeartbeatSet (renewal_error U (store w) ctx) schedule ctx
      (HeartbeatSetRequest.mk [HeartbeatSetElement.mk serviceId instanceId]) =
      Some (set, None) ∧
    (Response.Code resp = Response_SUCCESS ↔ HeartbeatResult.Err result = None) ∧
    (is_Some err ↔
     is_Some (HeartbeatResult.Err result) ∧ HeartbeatResult.IsInnerErr result = true) ∧
    (Response.Code (HeartbeatSetResponse.Response set) = Response_SUCCESS ↔
     Response.Code resp = Response_SUCCESS ∨
     ∃ e, HeartbeatResult.Err result = Some e ∧ Error_string e = "").
Proof.
  intros Hvalid serviceId instanceId result.
  rewrite HeartbeatSet_run by done. cbn [HeartbeatSetRequest.Instances].
  assert (scheduled (fanout [HeartbeatSetElement.mk serviceId instanceId]) =
          [HeartbeatSetElement.mk serviceId instanceId]) as ->.
  { unfold fanout, fanout_step. cbn. by rewrite lookup_empty. }
  cbn [fmap list_fmap].
  set (r := getHeartbeatFunc _ _ _).
  pose proof (deliver_Permutation schedule [r]) as Hperm.
  apply Permutation_singleton_r in Hperm. rewrite Hperm. cbn [existsb]. rewrite orb_false_r.
  unfold Heartbeat. rewrite Hvalid. unfold mbind, M_bind, get_store, mret, M_ret.
  cbn beta iota zeta. fold serviceId instanceId result.
  assert (failed r =
          match HeartbeatResult.Err result with
          | Some e => bool_decide (Error_string e ≠ "")
          | None => false
          end) as ->.
  { subst r. unfold getHeartbeatFunc, renewal_error. cbn. fold serviceId instanceId result.
    by destruct (HeartbeatResult.Err result). }
  destruct (HeartbeatResult.Err result) as [e|] eqn:Herr.
  - destruct (decide (Error_string e = "")) as [Hmsg|Hmsg].
    + rewrite bool_decide_eq_false_2 by (by intros Hne).
      destruct (HeartbeatResult.IsInnerErr result); do 4 eexists;
        (split; [reflexivity|]); (split; [reflexivity|]); cbn; split_and!;
        try (split; [done|by intros [? ?]]); try (split; by eauto);
        split; eauto.
    + rewrite bool_decide_eq_true_2 by done.
      destruct (HeartbeatResult.IsInnerErr result); do 4 eexists;
        (split; [reflexivity|]); (split; [reflexivity|]); cbn; split_and!;
        try (split; [done|by intros [? ?]]); try (split; by eauto);
        (split; [done|]); by intros [?|(e' & [= <-] & ?)].
  - do 4 eexists. split; [reflexivity|]. split; [reflexivity|]. cbn. split_and!.
    + done.
    + split; [by intros [? ?]|]. by intros [[? ?] _].
    + split; [by left|done].
Qed.

(** The registered instance [I1] of [s1]: both calls answer SUCCESS. *)
Lemma HeartbeatSet_singleton_and_Heartbeat_witness :
  ∃ resp err w' set,
    Heartbeat SampleReaders.readers Sample.tenant (HeartbeatRequest.mk "s1" "I1")
      Sample.registered = Done (resp, err) w' ∧
    HeartbeatSet (renewal_error SampleReaders.readers (store Sample.registered) Sample.tenant)
      [] Sample.tenant (HeartbeatSetRequest.mk [HeartbeatSetElement.mk "s1" "I1"]) =
      Some (set, None) ∧
    Response.Code resp = Response_SUCCESS ∧
    Response.Code (HeartbeatSetResponse.Response set) = Response_SUCCESS.
Proof.
  destruct (HeartbeatSet_singleton_and_Heartbeat SampleReaders.readers [] Sample.tenant
              (HeartbeatRequest.mk "s1" "I1") Sample.registered)
    as (resp & err & w' & set & Hone & Hset & Hcode & _ & Hboth).
  - reflexivity.
  - assert (Response.Code resp = Response_SUCCESS) as Hok
      by (apply Hcode; vm_compute; reflexivity).
    exists resp, err, w', set. split; [exact Hone|]. split; [exact Hset|].
    split; [exact Hok|]. apply Hboth. left. exact Hok.
Defined.

(** ** The instance readers *)

Lemma checkTags_None (tagsFromETCD : gmap string string) tags :
  checkTags tagsFromETCD tags = None ↔ ∀ tag, tag ∈ tags → is_Some (tagsFromETCD !! tag).
Proof.
  induction tags as [|tag tags IH]; cbn.
  - split; [|done]. by intros _ tag Htag%elem_of_nil.
  - destruct (tagsFromETCD !! tag) as [v|] eqn:Htag.
    + rewrite IH. split.
      * intros Hall t [->|Ht]%elem_of_cons; [by rewrite Htag|by apply Hall].
      * intros Hall t Ht. apply Hall. by apply list_elem_of_further.
    + split; [done|]. intros Hall. specialize (Hall tag (list_elem_of_here _ _)).
      rewrite Htag in Hall. by destruct Hall.
Qed.

Lemma checkTags_first_missing (tagsFromETCD : gmap string string) pre tag post :
  (∀ t, t ∈ pre → is_Some (tagsFromETCD !! t)) →
  tagsFromETCD !! tag = None →
  checkTags tagsFromETCD (pre ++ tag :: post) =
  Some (scerr.NewError ErrTagNotExists ("Provider tags do not contain '" +:+ tag +:+ "'")).
Proof.
  intros Hpre Htag. induction pre as [|t pre IH]; cbn.
  - by rewrite Htag.
  - destruct (Hpre t (list_elem_of_here _ _)) as [v ->]. apply IH.
    intros t' Ht'. apply Hpre. by apply list_elem_of_further.
Qed.

Lemma tagPreCheck_None U st ctx targetDomainProject providerServiceId tags :
  tagPreCheck U st ctx targetDomainProject providerServiceId tags = None ↔
  tags = [] ∨
  (GetTagsUtils U st ctx targetDomainProject providerServiceId).2 = None ∧
  ∀ tag, tag ∈ tags →
         is_Some ((GetTagsUtils U st ctx targetDomainProject providerServiceId).1 !! tag).
Proof.
  unfold tagPreCheck. destruct (decide (tags ≠ [])) as [Hne|Hnil].
  2: { apply dec_stable in Hnil. split; [by left|done]. }
  destruct (GetTagsUtils U st ctx targetDomainProject providerServiceId)
    as [tagsFromETCD [err|]]; cbn.
  { split; [done|]. by intros [?|[? _]]. }
  destruct (decide (tagsFromETCD = ∅)) as [->|Hsome].
  - split; [done|]. intros [?|[_ Hall]]; [done|].
    destruct tags as [|tag tags]; [done|].
    specialize (Hall tag (list_elem_of_here _ _)). rewrite lookup_empty in Hall.
    by destruct Hall.
  - rewrite checkTags_None. split; [by right|]. by intros [?|[_ ?]].
Qed.

(** X11.  The pre-check of the instance readers passes exactly when the
    provider service exists in the target tenant, the request names no
    tag or the provider's tags can be read and contain every requested
    tag, and the consumer may access the provider. *)
Theorem getInstancePreCheck_passes U st ctx providerServiceId consumerServiceId tags :
  let target := ParseTargetDomainProject ctx in
  getInstancePreCheck U st ctx providerServiceId consumerServiceId tags = None ↔
  ServiceExist U st ctx target providerServiceId = true ∧
  (tags = [] ∨
   (GetTagsUtils U st ctx target providerServiceId).2 = None ∧
   ∀ tag, tag ∈ tags →
          is_Some ((GetTagsUtils U st ctx target providerServiceId).1 !! tag)) ∧
  Accessible U st ctx consumerServiceId providerServiceId = None.
Proof.
  intros target. unfold getInstancePreCheck. fold target.
  rewrite <- tagPreCheck_None.
  destruct (ServiceExist U st ctx target providerServiceId); cbn; [|naive_solver].
  destruct (tagPreCheck U st ctx target providerServiceId tags); naive_solver.
Qed.

(** X12.  The tags are checked in the order of the request and before
    the access rules: when the provider exists and has tags, the
    pre-check fails with TagNotExists naming the first requested tag the
    provider lacks, whatever the access rules say. *)
Theorem getInstancePreCheck_first_missing_tag U st ctx providerServiceId consumerServiceId
    tagsFromETCD pre tag post :
  let target := ParseTargetDomainProject ctx in
  ServiceExist U st ctx target providerServiceId = true →
  GetTagsUtils U st ctx target providerServiceId = (tagsFromETCD, None) →
  tagsFromETCD ≠ ∅ →
  (∀ t, t ∈ pre → is_Some (tagsFromETCD !! t)) →
  tagsFromETCD !! tag = None →
  getInstancePreCheck U st ctx providerServiceId consumerServiceId (pre ++ tag :: post) =
  Some (scerr.NewError ErrTagNotExists ("Provider tags do not contain '" +:+ tag +:+ "'")).
Proof.
  intros target Hexist Htags Hsome Hpre Htag.
  unfold getInstancePreCheck, tagPreCheck. fold target. rewrite Hexist. cbn.
  rewrite decide_True by (by destruct pre). rewrite Htags. cbn.
  rewrite decide_False by done. by rewrite checkTags_first_missing.
Qed.

(** The provider [s1] has the tags zone and tier: a request for zone,
    gpu and rack fails on gpu. *)
Lemma getInstancePreCheck_first_missing_tag_witness :
  getInstancePreCheck SampleReaders.readers (store Sample.with_service)
    SampleReaders.own_target "s1" "c1" ["zone"; "gpu"; "rack"] =
  Some (scerr.NewError ErrTagNotExists "Provider tags do not contain 'gpu'").
Proof.
  apply (getInstancePreCheck_first_missing_tag SampleReaders.readers
           (store Sample.with_service) SampleReaders.own_target "s1" "c1"
           (<["zone" := "east"]> (<["tier" := "web"]> ∅)) ["zone"] "gpu" ["rack"]).
  - vm_compute. reflexivity.
  - reflexivity.
  - intros Hempty.
    assert ((<["zone" := "east"]> (<["tier" := "web"]> ∅) : gmap string string) !! "zone" =
            (∅ : gmap string string) !! "zone") as Hzone by (by rewrite Hempty).
    vm_compute in Hzone. discriminate Hzone.
  - intros t Ht. apply list_elem_of_singleton in Ht as ->. vm_compute. eauto.
  - vm_compute. reflexivity.
Defined.
